(** * Socket lifecycle of the four echo programs

    Shallow embedding of [tcp_server.cpp], [tcp_client.cpp],
    [udp_server.cpp] and [udp_client.cpp] as interaction trees over the
    BSD socket calls they make, and the properties of their traces.

    Each program is an [itree] whose visible events are the calls it
    makes to the operating system and to the C++ output streams.  The
    operating system is any function answering these calls (see [os]);
    every theorem about a program is stated for all of them.  A run
    ends when [main] returns, or inside [send] when the peer has broken
    the connection: the programs pass no flag to [send] and leave
    SIGPIPE at its default, which terminates the process.  The datagram
    server is a [while (true)] loop and is modelled with [ITree.iter];
    the other three programs are straight-line code. *)

From Stdlib Require Import ZArith List Lia Bool Arith.
From Stdlib Require Import Strings.String Strings.Byte.
From ITree Require Import ITree.
Import ListNotations.
Import ITreeNotations.
Local Open Scope itree_scope.
Local Open Scope Z_scope.

(* ===================================================================== *)
(** ** Data of the socket interface *)
(* ===================================================================== *)

(** [struct sockaddr_in]: the three fields the programs set or read.
    [sin_port] is held in network byte order, as the C field is. *)
Record sockaddr_in := {
  sin_family : Z;
  sin_port : Z;
  sin_addr : Z
}.

Definition AF_INET : Z := 2.
Definition SOCK_STREAM : Z := 1.
Definition SOCK_DGRAM : Z := 2.
Definition SOL_SOCKET : Z := 1.
Definition SO_REUSEADDR : Z := 2.
Definition INADDR_ANY : Z := 0.

(** [sizeof(struct sockaddr_in)] and [sizeof(int)]. *)
Definition SIZEOF_SOCKADDR_IN : Z := 16.
Definition SIZEOF_INT : Z := 4.

(** [htons] and [ntohs] on a little-endian host: the two bytes of a
    16-bit value change places. *)
Definition htons (x : Z) : Z :=
  Z.lor (Z.shiftl (Z.land x 255) 8) (Z.land (Z.shiftr x 8) 255).

Definition ntohs (x : Z) : Z := htons x.

(** A string literal of the source: its bytes followed by the NUL the
    compiler appends. *)
Definition literal (s : string) : list byte :=
  list_byte_of_string s ++ [x00].

(** The bytes of a C string: everything before the first NUL. *)
Fixpoint until_nul (b : list byte) : list byte :=
  match b with
  | [] => []
  | x :: rest => if Byte.eqb x x00 then [] else x :: until_nul rest
  end.

(** Whether an array of bytes holds a NUL at all. *)
Definition terminated (b : list byte) : bool :=
  existsb (Byte.eqb x00) b.

(** [std::strlen]. *)
Definition strlen (b : list byte) : Z :=
  Z.of_nat (List.length (until_nul b)).

(** [char buffer[n] = {0}]. *)
Definition zeroed (n : Z) : list byte := repeat x00 (Z.to_nat n).

(** [buffer[i] = v]: defined only inside the array. *)
Definition store (b : list byte) (i : Z) (v : byte) : option (list byte) :=
  if (0 <=? i) && (i <? Z.of_nat (List.length b))
  then Some (firstn (Z.to_nat i) b ++ v :: skipn (S (Z.to_nat i)) b)
  else None.

(** What the kernel leaves in the caller's array after copying [got]
    to its start. *)
Definition blit (got b : list byte) : list byte :=
  got ++ skipn (List.length got) b.

(** What a receive that asks for [len] bytes takes of the bytes that
    wait: at most [len] of them, from the front. *)
Definition delivered (len : Z) (waiting : list byte) : list byte :=
  firstn (Z.to_nat len) waiting.

(** The value a receive that asks for [len] bytes returns in C: -1 when
    the call fails, else the number of bytes taken. *)
Definition received (len : Z) (r : option (list byte)) : Z :=
  match r with
  | Some waiting => Z.of_nat (List.length (delivered len waiting))
  | None => -1
  end.

(* ===================================================================== *)
(** ** Calls and their answers *)
(* ===================================================================== *)

Variant stream := Stdout | Stderr.

(** What is inserted into an output stream with [<<]. *)
Variant piece :=
| Str (s : string)        (* a string literal *)
| CStr (b : list byte)    (* a [char*], shown up to its NUL *)
| Num (z : Z)             (* an integer *)
| Ip (a : Z)              (* [inet_ntoa] of an address *)
| Errno.                  (* [std::strerror(errno)] *)

(** Answer of [inet_pton]: 1 and the address, 0 for a malformed
    literal, -1 for an unsupported family. *)
Variant pton_result :=
| PtonOk (s_addr : Z)
| PtonMalformed
| PtonNoFamily.

(** The signals a call can raise in its caller. *)
Variant signal := SIGPIPE.

(** Answer of [send] on a stream socket: the call returns, with a count
    or with a failure, or it finds that the peer has broken the
    connection.  In that case the kernel raises SIGPIPE in the caller
    before the call returns, unless the caller asked for
    [MSG_NOSIGNAL]. *)
Variant send_result :=
| SendReturns (r : option nat)
| SendBroken.

Definition MSG_NOSIGNAL : Z := 16384.

(** The calls, each with the type of the answer of the operating
    system.  [None] and [false] stand for the failure of the call (the C
    function returns -1 and sets [errno]); a descriptor or a byte count
    is a natural number.  A receive is answered with the bytes that wait
    in the socket; how many of them reach the caller is decided by the
    length the caller asked for (see [recv] and [recvfrom]).  [Write] is
    one statement that inserts into [std::cout] or [std::cerr] up to
    its [std::endl]; both streams are taken to be open. *)
Variant sysE : Type -> Type :=
| SysSocket (domain type protocol : Z) : sysE (option nat)
| SysSetsockopt (fd level optname optval optlen : Z) : sysE bool
| SysBind (fd : Z) (addr : sockaddr_in) (addrlen : Z) : sysE bool
| SysListen (fd backlog : Z) : sysE bool
| SysAccept (fd addrlen : Z) : sysE (option (nat * sockaddr_in))
| SysConnect (fd : Z) (addr : sockaddr_in) (addrlen : Z) : sysE bool
| SysSend (fd : Z) (payload : list byte) (flags : Z) : sysE send_result
| SysRecv (fd len flags : Z) : sysE (option (list byte))
| SysSendto (fd : Z) (payload : list byte) (flags : Z)
            (dest : sockaddr_in) (destlen : Z) : sysE (option nat)
| SysRecvfrom (fd len flags addrlen : Z)
  : sysE (option (list byte * sockaddr_in))
| SysClose (fd : Z) : sysE bool
| LibInetPton (af : Z) (src : string) : sysE pton_result
| Write (to : stream) (text : list piece) : sysE unit.

(** What ends a run other than the return of [main]: an access
    outside an array, from where the behaviour of the C program is
    undefined, and a signal whose disposition is to terminate the
    process.  No program of the four installs a handler or changes a
    disposition, so every signal raised terminates. *)
Variant faultE : Type -> Type :=
| OutOfBounds (i : Z) : faultE Empty_set
| Signal (s : signal) : faultE Empty_set.

Definition E : Type -> Type := sysE +' faultE.

Definition sys {T} (e : sysE T) : itree E T := ITree.trigger (inl1 e).

Definition fault {R} (i : Z) : itree E R :=
  Vis (inr1 (OutOfBounds i)) (fun v : Empty_set => match v with end).

Definition raise {R} (s : signal) : itree E R :=
  Vis (inr1 (Signal s)) (fun v : Empty_set => match v with end).

(** One entry of a trace: a call together with its answer. *)
Inductive event :=
| ESocket (domain type protocol : Z) (r : option nat)
| ESetsockopt (fd level optname optval optlen : Z) (r : bool)
| EBind (fd : Z) (addr : sockaddr_in) (addrlen : Z) (r : bool)
| EListen (fd backlog : Z) (r : bool)
| EAccept (fd addrlen : Z) (r : option (nat * sockaddr_in))
| EConnect (fd : Z) (addr : sockaddr_in) (addrlen : Z) (r : bool)
| ESend (fd : Z) (payload : list byte) (flags : Z) (r : send_result)
| ERecv (fd len flags : Z) (r : option (list byte))
| ESendto (fd : Z) (payload : list byte) (flags : Z)
          (dest : sockaddr_in) (destlen : Z) (r : option nat)
| ERecvfrom (fd len flags addrlen : Z) (r : option (list byte * sockaddr_in))
| EClose (fd : Z) (r : bool)
| EInetPton (af : Z) (src : string) (r : pton_result)
| EWrite (to : stream) (text : list piece).

Definition log {T} (e : sysE T) : T -> event :=
  match e with
  | SysSocket d t p => ESocket d t p
  | SysSetsockopt fd l n v vl => ESetsockopt fd l n v vl
  | SysBind fd a al => EBind fd a al
  | SysListen fd b => EListen fd b
  | SysAccept fd al => EAccept fd al
  | SysConnect fd a al => EConnect fd a al
  | SysSend fd p fl => ESend fd p fl
  | SysRecv fd n fl => ERecv fd n fl
  | SysSendto fd p fl a al => ESendto fd p fl a al
  | SysRecvfrom fd n fl al => ERecvfrom fd n fl al
  | SysClose fd => EClose fd
  | LibInetPton af s => EInetPton af s
  | Write to text => fun _ => EWrite to text
  end.

(* ===================================================================== *)
(** ** The C functions, as the programs call them *)
(* ===================================================================== *)

Module libc.

(** Return value of a call that yields a descriptor or a count. *)
Definition ret_count (r : option nat) : Z :=
  match r with Some n => Z.of_nat n | None => -1 end.

(** Return value of a call that yields 0 or -1. *)
Definition ret_status (ok : bool) : Z := if ok then 0 else -1.

Definition socket (domain type protocol : Z) : itree E Z :=
  r <- sys (SysSocket domain type protocol) ;; Ret (ret_count r).

Definition setsockopt (fd level optname optval optlen : Z) : itree E Z :=
  ok <- sys (SysSetsockopt fd level optname optval optlen) ;;
  Ret (ret_status ok).

Definition bind (fd : Z) (addr : sockaddr_in) (addrlen : Z) : itree E Z :=
  ok <- sys (SysBind fd addr addrlen) ;; Ret (ret_status ok).

Definition listen (fd backlog : Z) : itree E Z :=
  ok <- sys (SysListen fd backlog) ;; Ret (ret_status ok).

(** [accept(fd, &addr, &addrlen)]: the descriptor of the connection,
    with the peer written to [addr] and its size to [addrlen]; on
    failure both are left as they were. *)
Definition accept (fd : Z) (addr : sockaddr_in) (addrlen : Z)
  : itree E (Z * sockaddr_in * Z) :=
  r <- sys (SysAccept fd addrlen) ;;
  Ret (match r with
       | Some (c, peer) => (Z.of_nat c, peer, SIZEOF_SOCKADDR_IN)
       | None => (-1, addr, addrlen)
       end).

Definition connect (fd : Z) (addr : sockaddr_in) (addrlen : Z) : itree E Z :=
  ok <- sys (SysConnect fd addr addrlen) ;; Ret (ret_status ok).

(** [send(fd, buf, len, flags)]: the first [len] bytes at [buf] are
    handed to the kernel.  On a connection that the peer has broken the
    call returns -1 only under [MSG_NOSIGNAL]; without it the process
    gets SIGPIPE inside the call. *)
Definition send (fd : Z) (buf : list byte) (len flags : Z) : itree E Z :=
  r <- sys (SysSend fd (firstn (Z.to_nat len) buf) flags) ;;
  match r with
  | SendReturns r => Ret (ret_count r)
  | SendBroken =>
      if Z.land flags MSG_NOSIGNAL =? 0 then raise SIGPIPE else Ret (-1)
  end.

Definition sendto (fd : Z) (buf : list byte) (len flags : Z)
           (dest : sockaddr_in) (destlen : Z) : itree E Z :=
  r <- sys (SysSendto fd (firstn (Z.to_nat len) buf) flags dest destlen) ;;
  Ret (ret_count r).

(** [recv(fd, buf, len, flags)]: at most [len] of the waiting bytes
    are copied to the start of [buf] and their number is returned; the
    copy must fit the array.  On failure [buf] is left as it was. *)
Definition recv (fd : Z) (buf : list byte) (len flags : Z)
  : itree E (Z * list byte) :=
  r <- sys (SysRecv fd len flags) ;;
  match r with
  | None => Ret (-1, buf)
  | Some waiting =>
      let got := delivered len waiting in
      if (List.length got <=? List.length buf)%nat
      then Ret (Z.of_nat (List.length got), blit got buf)
      else fault (Z.of_nat (List.length buf))
  end.

(** [recvfrom(fd, buf, len, flags, &addr, &addrlen)]: as [recv]; the
    rest of a longer datagram is dropped by the kernel, the sender is
    written to [addr] and the size of its address to [addrlen]. *)
Definition recvfrom (fd : Z) (buf : list byte) (len flags : Z)
           (addr : sockaddr_in) (addrlen : Z)
  : itree E (Z * list byte * sockaddr_in * Z) :=
  r <- sys (SysRecvfrom fd len flags addrlen) ;;
  match r with
  | None => Ret (-1, buf, addr, addrlen)
  | Some (datagram, sender) =>
      let got := delivered len datagram in
      if (List.length got <=? List.length buf)%nat
      then Ret (Z.of_nat (List.length got), blit got buf,
                sender, SIZEOF_SOCKADDR_IN)
      else fault (Z.of_nat (List.length buf))
  end.

Definition close (fd : Z) : itree E Z :=
  ok <- sys (SysClose fd) ;; Ret (ret_status ok).

(** [inet_pton(af, src, &dst)]: [dst] is written only on success. *)
Definition inet_pton (af : Z) (src : string) (dst : Z) : itree E (Z * Z) :=
  r <- sys (LibInetPton af src) ;;
  Ret (match r with
       | PtonOk a => (1, a)
       | PtonMalformed => (0, dst)
       | PtonNoFamily => (-1, dst)
       end).

Definition cout (text : list piece) : itree E unit := sys (Write Stdout text).
Definition cerr (text : list piece) : itree E unit := sys (Write Stderr text).

(** [buffer[i] = v]. *)
Definition assign (b : list byte) (i : Z) (v : byte) : itree E (list byte) :=
  match store b i v with
  | Some b' => Ret b'
  | None => fault i
  end.

(** Reading a [char] array as a C string, as [operator<<] does: the
    read stays inside the array only if a NUL is found in it. *)
Definition c_str (b : list byte) : itree E (list byte) :=
  if terminated b then Ret (until_nul b)
  else fault (Z.of_nat (List.length b)).

End libc.

(* ===================================================================== *)
(** ** tcp_server.cpp *)
(* ===================================================================== *)

Module tcp_server.
Import libc.

Definition PORT : Z := 8080.
Definition BUFFER_SIZE : Z := 1024.
Definition MAX_PENDING_CONNECTIONS : Z := 5.

(** [main].  [client_address] is declared without an initialiser; its
    first contents are the argument. *)
Definition main (client_address : sockaddr_in) : itree E Z :=
  let client_address_len := SIZEOF_SOCKADDR_IN in
  let buffer := zeroed BUFFER_SIZE in
  let response_message := literal "Hello from TCP server!" in
  (* 1. Create socket *)
  server_socket <- socket AF_INET SOCK_STREAM 0 ;;
  if server_socket =? -1 then
    cerr [Str "Error: Could not create socket. "; Errno] ;;
    Ret 1
  else
  cout [Str "Server socket created successfully."] ;;
  let opt := 1 in
  r <- setsockopt server_socket SOL_SOCKET SO_REUSEADDR opt SIZEOF_INT ;;
  (if r =? -1
   then cerr [Str "Warning: setsockopt SO_REUSEADDR failed. "; Errno]
   else Ret tt) ;;
  (* 2. Prepare the server address structure *)
  let server_address :=
    {| sin_family := AF_INET;
       sin_port := htons PORT;
       sin_addr := INADDR_ANY |} in
  (* 3. Bind *)
  r <- bind server_socket server_address SIZEOF_SOCKADDR_IN ;;
  if r =? -1 then
    cerr [Str "Error: Bind failed. "; Errno] ;;
    close server_socket ;;
    Ret 1
  else
  cout [Str "Socket bound to port "; Num PORT] ;;
  (* 4. Listen *)
  r <- listen server_socket MAX_PENDING_CONNECTIONS ;;
  if r =? -1 then
    cerr [Str "Error: Listen failed. "; Errno] ;;
    close server_socket ;;
    Ret 1
  else
  cout [Str "Server listening on port "; Num PORT; Str "..."] ;;
  (* 5. Accept a client connection *)
  '(client_socket, client_address, client_address_len) <-
    accept server_socket client_address client_address_len ;;
  if client_socket =? -1 then
    cerr [Str "Error: Accept failed. "; Errno] ;;
    close server_socket ;;
    Ret 1
  else
  cout [Str "Accepted connection from "; Ip (sin_addr client_address);
        Str ":"; Num (ntohs (sin_port client_address))] ;;
  (* 6. Receive data from the client *)
  '(bytes_received, buffer) <- recv client_socket buffer (BUFFER_SIZE - 1) 0 ;;
  (if bytes_received =? -1 then
     cerr [Str "Error: Receive failed. "; Errno]
   else if bytes_received =? 0 then
     cout [Str "Client disconnected."]
   else
     buffer <- assign buffer bytes_received x00 ;;
     shown <- c_str buffer ;;
     cout [Str "Message received from client: "; CStr shown;
           Str " ("; Num bytes_received; Str " bytes)"] ;;
     (* 7. Send response back to the client *)
     bytes_sent <- send client_socket response_message
                        (strlen response_message) 0 ;;
     if bytes_sent =? -1 then
       cerr [Str "Error: Send failed. "; Errno]
     else
       cout [Str "Response sent to client: ";
             CStr (until_nul response_message);
             Str " ("; Num bytes_sent; Str " bytes)"]) ;;
  (* 8. Close the client socket *)
  close client_socket ;;
  cout [Str "Client socket closed."] ;;
  (* 9. Close the server listening socket *)
  close server_socket ;;
  cout [Str "Server socket closed."] ;;
  Ret 0.

End tcp_server.

(* ===================================================================== *)
(** ** tcp_client.cpp *)
(* ===================================================================== *)

Module tcp_client.
Import libc.

Definition SERVER_IP : string := "127.0.0.1".
Definition PORT : Z := 8080.
Definition BUFFER_SIZE : Z := 1024.

Definition main : itree E Z :=
  let buffer := zeroed BUFFER_SIZE in
  let message := literal "Hello from TCP client!" in
  (* 1. Create socket *)
  client_socket <- socket AF_INET SOCK_STREAM 0 ;;
  if client_socket =? -1 then
    cerr [Str "Error: Could not create socket. "; Errno] ;;
    Ret 1
  else
  cout [Str "Socket created successfully."] ;;
  (* 2. Prepare the server address structure *)
  let server_address :=
    {| sin_family := AF_INET; sin_port := htons PORT; sin_addr := 0 |} in
  '(r, s_addr) <- inet_pton AF_INET SERVER_IP (sin_addr server_address) ;;
  let server_address :=
    {| sin_family := sin_family server_address;
       sin_port := sin_port server_address;
       sin_addr := s_addr |} in
  if r <=? 0 then
    cerr [Str "Error: Invalid address/ Address not supported. "; Errno] ;;
    close client_socket ;;
    Ret 1
  else
  (* 3. Connect to the server *)
  r <- connect client_socket server_address SIZEOF_SOCKADDR_IN ;;
  if r =? -1 then
    cerr [Str "Error: Connection failed. "; Errno] ;;
    close client_socket ;;
    Ret 1
  else
  cout [Str "Connected to server "; Str SERVER_IP; Str ":"; Num PORT] ;;
  (* 4. Send data to the server *)
  bytes_sent <- send client_socket message (strlen message) 0 ;;
  if bytes_sent =? -1 then
    cerr [Str "Error: Send failed. "; Errno] ;;
    close client_socket ;;
    Ret 1
  else
  cout [Str "Message sent: "; CStr (until_nul message);
        Str " ("; Num bytes_sent; Str " bytes)"] ;;
  (* 5. Receive data from the server *)
  '(bytes_received, buffer) <- recv client_socket buffer (BUFFER_SIZE - 1) 0 ;;
  if bytes_received =? -1 then
    cerr [Str "Error: Receive failed. "; Errno] ;;
    close client_socket ;;
    Ret 1
  else
  (if bytes_received =? 0 then
     cout [Str "Server closed the connection."]
   else
     buffer <- assign buffer bytes_received x00 ;;
     shown <- c_str buffer ;;
     cout [Str "Message received: "; CStr shown;
           Str " ("; Num bytes_received; Str " bytes)"]) ;;
  (* 6. Close the socket *)
  close client_socket ;;
  cout [Str "Socket closed."] ;;
  Ret 0.

End tcp_client.

(* ===================================================================== *)
(** ** udp_server.cpp *)
(* ===================================================================== *)

Module udp_server.
Import libc.

Definition PORT : Z := 8080.
Definition BUFFER_SIZE : Z := 1024.

(** The locals of [main] that the loop reads and writes. *)
Record locals := {
  buffer : list byte;
  client_address : sockaddr_in;
  client_address_len : Z
}.

(** The body of [while (true)].  [inl] starts the next iteration: both
    [continue] statements and the end of the body do; the body holds
    no [break] and no [return]. *)
Definition loop_body (server_socket : Z) (response_message : list byte)
           (l : locals) : itree E (locals + unit) :=
  (* 4. Receive data from a client *)
  '(bytes_received, buffer, client_address, client_address_len) <-
    recvfrom server_socket (buffer l) (BUFFER_SIZE - 1) 0
             (client_address l) (client_address_len l) ;;
  let l := {| buffer := buffer;
              client_address := client_address;
              client_address_len := client_address_len |} in
  if bytes_received =? -1 then
    cerr [Str "Error: Recvfrom failed. "; Errno] ;;
    Ret (inl l)
  else if bytes_received =? 0 then
    cout [Str "Received empty datagram."] ;;
    Ret (inl l)
  else
    buffer <- assign buffer bytes_received x00 ;;
    shown <- c_str buffer ;;
    cout [Str "Received from "; Ip (sin_addr client_address);
          Str ":"; Num (ntohs (sin_port client_address));
          Str ": "; CStr shown;
          Str " ("; Num bytes_received; Str " bytes)"] ;;
    (* 5. Send response back to the client *)
    bytes_sent <- sendto server_socket response_message
                         (strlen response_message) 0
                         client_address client_address_len ;;
    (if bytes_sent =? -1 then
       cerr [Str "Error: Sendto failed. "; Errno]
     else
       cout [Str "Response sent to "; Ip (sin_addr client_address);
             Str ":"; Num (ntohs (sin_port client_address));
             Str ": "; CStr (until_nul response_message);
             Str " ("; Num bytes_sent; Str " bytes)"]) ;;
    Ret (inl {| buffer := buffer;
                client_address := client_address;
                client_address_len := client_address_len |}).

(** [main].  [client_address] is declared without an initialiser; its
    first contents are the argument. *)
Definition main (client_address : sockaddr_in) : itree E Z :=
  let client_address_len := SIZEOF_SOCKADDR_IN in
  let buffer := zeroed BUFFER_SIZE in
  let response_message := literal "Hello from UDP server!" in
  (* 1. Create socket *)
  server_socket <- socket AF_INET SOCK_DGRAM 0 ;;
  if server_socket =? -1 then
    cerr [Str "Error: Could not create socket. "; Errno] ;;
    Ret 1
  else
  cout [Str "Server socket created successfully."] ;;
  let opt := 1 in
  r <- setsockopt server_socket SOL_SOCKET SO_REUSEADDR opt SIZEOF_INT ;;
  (if r =? -1
   then cerr [Str "Warning: setsockopt SO_REUSEADDR failed. "; Errno]
   else Ret tt) ;;
  (* 2. Prepare the server address structure *)
  let server_address :=
    {| sin_family := AF_INET;
       sin_port := htons PORT;
       sin_addr := INADDR_ANY |} in
  (* 3. Bind *)
  r <- bind server_socket server_address SIZEOF_SOCKADDR_IN ;;
  if r =? -1 then
    cerr [Str "Error: Bind failed. "; Errno] ;;
    close server_socket ;;
    Ret 1
  else
  cout [Str "Socket bound to port "; Num PORT] ;;
  cout [Str "UDP Server listening on port "; Num PORT; Str "..."] ;;
  (* Loop indefinitely to receive and respond to packets *)
  ITree.iter (loop_body server_socket response_message)
             {| buffer := buffer;
                client_address := client_address;
                client_address_len := client_address_len |} ;;
  (* 6. Close the socket *)
  close server_socket ;;
  cout [Str "Server socket closed."] ;;
  Ret 0.

End udp_server.

(* ===================================================================== *)
(** ** udp_client.cpp *)
(* ===================================================================== *)

Module udp_client.
Import libc.

Definition SERVER_IP : string := "127.0.0.1".
Definition PORT : Z := 8080.
Definition BUFFER_SIZE : Z := 1024.

Definition main : itree E Z :=
  let buffer := zeroed BUFFER_SIZE in
  let message := literal "Hello from UDP client!" in
  (* 1. Create socket *)
  client_socket <- socket AF_INET SOCK_DGRAM 0 ;;
  if client_socket =? -1 then
    cerr [Str "Error: Could not create socket. "; Errno] ;;
    Ret 1
  else
  cout [Str "Socket created successfully."] ;;
  (* 2. Prepare the server address structure *)
  let server_address :=
    {| sin_family := AF_INET; sin_port := htons PORT; sin_addr := 0 |} in
  '(r, s_addr) <- inet_pton AF_INET SERVER_IP (sin_addr server_address) ;;
  let server_address :=
    {| sin_family := sin_family server_address;
       sin_port := sin_port server_address;
       sin_addr := s_addr |} in
  if r <=? 0 then
    cerr [Str "Error: Invalid address/ Address not supported. "; Errno] ;;
    close client_socket ;;
    Ret 1
  else
  (* 3. Send data to the server *)
  bytes_sent <- sendto client_socket message (strlen message) 0
                       server_address SIZEOF_SOCKADDR_IN ;;
  if bytes_sent =? -1 then
    cerr [Str "Error: Sendto failed. "; Errno] ;;
    close client_socket ;;
    Ret 1
  else
  cout [Str "Message sent to "; Str SERVER_IP; Str ":"; Num PORT;
        Str ": "; CStr (until_nul message);
        Str " ("; Num bytes_sent; Str " bytes)"] ;;
  (* 4. Receive data from the server *)
  let server_address_len := SIZEOF_SOCKADDR_IN in
  '(bytes_received, buffer, server_address, server_address_len) <-
    recvfrom client_socket buffer (BUFFER_SIZE - 1) 0
             server_address server_address_len ;;
  if bytes_received =? -1 then
    cerr [Str "Error: Recvfrom failed. "; Errno] ;;
    close client_socket ;;
    Ret 1
  else
  (if bytes_received =? 0 then
     cout [Str "Server closed the connection (no data received)."]
   else
     buffer <- assign buffer bytes_received x00 ;;
     shown <- c_str buffer ;;
     cout [Str "Message received: "; CStr shown;
           Str " ("; Num bytes_received; Str " bytes)"]) ;;
  (* 5. Close the socket *)
  close client_socket ;;
  cout [Str "Socket closed."] ;;
  Ret 0.

End udp_client.


(* ===================================================================== *)
(** ** Running a program against an operating system *)
(* ===================================================================== *)

(** An operating system with states [W]: it answers every call and moves
    to its next state.  A call that never comes back has no answer
    here: of a run in which the program is kept waiting for ever, what
    is seen is the run up to that call. *)
Definition os (W : Type) : Type := forall T, sysE T -> W -> W * T.

(** How a run stands when it is looked at: still going (the steps
    granted are used up), returned from [main], stopped at an access
    outside an array, or terminated by a signal. *)
Variant outcome (R : Type) :=
| Running
| Returned (r : R)
| Undefined (i : Z)
| Killed (s : signal).

Arguments Running {R}.
Arguments Returned {R} r.
Arguments Undefined {R} i.
Arguments Killed {R} s.

(** Trace, outcome, last state of the operating system, steps left. *)
Definition result (W R : Type) : Type := list event * outcome R * W * nat.

Definition trace_of {W R} (r : result W R) : list event := fst (fst (fst r)).
Definition outcome_of {W R} (r : result W R) : outcome R := snd (fst (fst r)).

Definition emit {W R} (ev : event) (r : result W R) : result W R :=
  let '(tr, o, w, f) := r in (ev :: tr, o, w, f).

(** [run h fuel t w] executes [t] from the state [w] of [h].  Each call
    and each turn of a loop takes one step of [fuel]. *)
Fixpoint run {W R} (h : os W) (fuel : nat) (t : itree E R) (w : W)
  : result W R :=
  match observe t with
  | RetF r => ([], Returned r, w, fuel)
  | TauF t' =>
      match fuel with
      | O => ([], Running, w, O)
      | S f => run h f t' w
      end
  | VisF e k =>
      match e with
      | inl1 c =>
          match fuel with
          | O => ([], Running, w, O)
          | S f => let (w', a) := h _ c w in emit (log c a) (run h f (k a) w')
          end
      | inr1 (OutOfBounds i) => ([], Undefined i, w, fuel)
      | inr1 (Signal s) => ([], Killed s, w, fuel)
      end
  end.

(** Sequencing of runs: what [run] does on [ITree.bind]. *)
Definition then_run {W R Q} (r : result W R)
           (k : R -> W -> nat -> result W Q) : result W Q :=
  let '(tr, o, w, f) := r in
  match o with
  | Returned x => let '(tr2, o2, w2, f2) := k x w f in (tr ++ tr2, o2, w2, f2)
  | Running => (tr, Running, w, f)
  | Undefined i => (tr, Undefined i, w, f)
  | Killed s => (tr, Killed s, w, f)
  end.

(* ===================================================================== *)
(** ** A simulated kernel, for concrete runs *)
(* ===================================================================== *)

Variant op :=
| OpSocket | OpSetsockopt | OpBind | OpListen | OpAccept | OpConnect
| OpSend | OpRecv | OpClose | OpInetPton | OpPipe.

(** State of the simulated kernel: which calls fail ([OpPipe]: the peer
    breaks the connection before anything is sent on it), the next free
    descriptor, the peer of an accepted connection, and the messages
    that wait to be received, each with its sender. *)
Record sim := {
  broken : op -> bool;
  next_fd : nat;
  peer : sockaddr_in;
  inbox : list (list byte * sockaddr_in)
}.

Definition take_fd (w : sim) : sim :=
  {| broken := broken w; next_fd := S (next_fd w);
     peer := peer w; inbox := inbox w |}.

Definition pop_inbox (w : sim) : sim :=
  {| broken := broken w; next_fd := next_fd w;
     peer := peer w; inbox := tl (inbox w) |}.

(** 127.0.0.1 as [s_addr] holds it. *)
Definition LOOPBACK : Z := 16777343.

Definition kernel : os sim :=
  fun T e w =>
    match e in sysE T return sim * T with
    | SysSocket _ _ _ =>
        if broken w OpSocket then (w, None) else (take_fd w, Some (next_fd w))
    | SysSetsockopt _ _ _ _ _ => (w, negb (broken w OpSetsockopt))
    | SysBind _ _ _ => (w, negb (broken w OpBind))
    | SysListen _ _ => (w, negb (broken w OpListen))
    | SysAccept _ _ =>
        if broken w OpAccept then (w, None)
        else (take_fd w, Some (next_fd w, peer w))
    | SysConnect _ _ _ => (w, negb (broken w OpConnect))
    | SysSend _ payload _ =>
        (w, if broken w OpPipe then SendBroken
            else SendReturns (if broken w OpSend then None
                              else Some (List.length payload)))
    | SysRecv _ _ _ =>
        if broken w OpRecv then (w, None)
        else match inbox w with
             | [] => (w, Some [])
             | (m, _) :: _ => (pop_inbox w, Some m)
             end
    | SysSendto _ payload _ _ _ =>
        (w, if broken w OpSend then None else Some (List.length payload))
    | SysRecvfrom _ _ _ _ =>
        if broken w OpRecv then (w, None)
        else match inbox w with
             | [] => (w, None)
             | (m, from) :: _ => (pop_inbox w, Some (m, from))
             end
    | SysClose _ => (w, negb (broken w OpClose))
    | LibInetPton _ _ =>
        (w, if broken w OpInetPton then PtonMalformed else PtonOk LOOPBACK)
    | Write _ _ => (w, tt)
    end.

Definition healthy (o : op) : bool := false.

Definition only (bad : op) (o : op) : bool :=
  match bad, o with
  | OpSocket, OpSocket | OpSetsockopt, OpSetsockopt | OpBind, OpBind
  | OpListen, OpListen | OpAccept, OpAccept | OpConnect, OpConnect
  | OpSend, OpSend | OpRecv, OpRecv | OpClose, OpClose
  | OpInetPton, OpInetPton | OpPipe, OpPipe => true
  | _, _ => false
  end.

Definition endpoint (a p : Z) : sockaddr_in :=
  {| sin_family := AF_INET; sin_port := htons p; sin_addr := a |}.

(** A kernel in which the calls [bad] fail and [msgs] wait. *)
Definition boot (bad : op -> bool) (msgs : list (list byte * sockaddr_in)) : sim :=
  {| broken := bad; next_fd := 3;
     peer := endpoint LOOPBACK 40000; inbox := msgs |}.

(* ===================================================================== *)
(** ** What is read off a trace *)
(* ===================================================================== *)

(** Descriptors handed out by [socket] and [accept], in order. *)
Definition opened_fds (tr : list event) : list Z :=
  flat_map (fun ev => match ev with
                      | ESocket _ _ _ (Some n) => [Z.of_nat n]
                      | EAccept _ _ (Some (n, _)) => [Z.of_nat n]
                      | _ => []
                      end) tr.

(** Descriptors passed to [close], in order. *)
Definition closed_fds (tr : list event) : list Z :=
  flat_map (fun ev => match ev with EClose fd _ => [fd] | _ => [] end) tr.

Fixpoint remove_first (fd : Z) (l : list Z) : list Z :=
  match l with
  | [] => []
  | x :: rest => if x =? fd then rest else x :: remove_first fd rest
  end.

(** Descriptors the process holds after [tr], having held [open]
    before: one more for each that is handed out, one less for each
    that is closed. *)
Fixpoint held (open : list Z) (tr : list event) : list Z :=
  match tr with
  | [] => open
  | ESocket _ _ _ (Some n) :: rest => held (Z.of_nat n :: open) rest
  | EAccept _ _ (Some (n, _)) :: rest => held (Z.of_nat n :: open) rest
  | EClose fd _ :: rest => held (remove_first fd open) rest
  | _ :: rest => held open rest
  end.

(** Payloads handed to [send] and [sendto], in order. *)
Definition sent (tr : list event) : list (list byte) :=
  flat_map (fun ev => match ev with
                      | ESend _ p _ _ => [p]
                      | ESendto _ p _ _ _ _ => [p]
                      | _ => []
                      end) tr.

(** A line on the error stream that reports an error (the programs
    start these with "Error:"; a warning is not one). *)
Definition is_error (text : list piece) : bool :=
  match text with
  | Str s :: _ => String.prefix "Error:" s
  | _ => false
  end.

Definition errors (tr : list event) : list (list piece) :=
  flat_map (fun ev => match ev with
                      | EWrite Stderr text => if is_error text then [text] else []
                      | _ => []
                      end) tr.

(** Calls to [accept]. *)
Definition accept_calls (tr : list event) : nat :=
  List.length (filter (fun ev => match ev with EAccept _ _ _ => true | _ => false end) tr).

(** Backlogs passed to [listen], in order. *)
Definition listen_backlogs (tr : list event) : list Z :=
  flat_map (fun ev => match ev with EListen _ b _ => [b] | _ => [] end) tr.

(** Calls to [recv] and [recvfrom]. *)
Definition receive_calls (tr : list event) : nat :=
  List.length (filter (fun ev => match ev with
                                 | ERecv _ _ _ _ | ERecvfrom _ _ _ _ _ => true
                                 | _ => false
                                 end) tr).

Definition sockaddr_eqb (a b : sockaddr_in) : bool :=
  (sin_family a =? sin_family b) && (sin_port a =? sin_port b)
  && (sin_addr a =? sin_addr b).

(** The line that shows a received message: the bytes taken, read as a
    C string, and their number. *)
Definition shows (len : Z) (waiting : list byte) (text : list piece) : Prop :=
  delivered len waiting <> [] ->
  In (CStr (until_nul (delivered len waiting))) text
  /\ In (Num (Z.of_nat (List.length (delivered len waiting)))) text.

(** After each receive that takes bytes, the next line on the output
    stream shows them. *)
Fixpoint shows_received (tr : list event) : Prop :=
  match tr with
  | [] => True
  | ev :: rest =>
      match ev, rest with
      | ERecv _ len _ (Some m), EWrite Stdout text :: _ => shows len m text
      | ERecvfrom _ len _ _ (Some (m, _)), EWrite Stdout text :: _ =>
          shows len m text
      | _, _ => True
      end /\ shows_received rest
  end.

(** The length each receive of [tr] asks for. *)
Definition receive_lengths (tr : list event) : list Z :=
  flat_map (fun ev => match ev with
                      | ERecv _ len _ _ => [len]
                      | ERecvfrom _ len _ _ _ => [len]
                      | _ => []
                      end) tr.

(** What each receive of [tr] returns in C. *)
Definition receive_returns (tr : list event) : list Z :=
  flat_map (fun ev => match ev with
                      | ERecv _ len _ r => [received len r]
                      | ERecvfrom _ len _ _ r =>
                          [received len (option_map fst r)]
                      | _ => []
                      end) tr.

(* ===================================================================== *)
(** ** The turns of the loop of the datagram server *)
(* ===================================================================== *)

(** The bytes of the answer of the datagram server. *)
Definition udp_reply : list byte :=
  list_byte_of_string "Hello from UDP server!".

(** The line the datagram server writes for a datagram [d] received
    from [from]. *)
Definition received_line (from : sockaddr_in) (d : list byte) : list piece :=
  [Str "Received from "; Ip (sin_addr from); Str ":";
   Num (ntohs (sin_port from)); Str ": ";
   CStr (until_nul (delivered 1023 d)); Str " (";
   Num (Z.of_nat (List.length (delivered 1023 d))); Str " bytes)"].

(** The calls of one turn of the loop on the socket [fd], in the four
    cases the loop body tells apart: the receive fails; the datagram is
    empty; the datagram is answered and the send fails; the datagram is
    answered. *)
Inductive turn (fd : Z) : list event -> Prop :=
| turn_recv_failed :
    turn fd [ERecvfrom fd 1023 0 SIZEOF_SOCKADDR_IN None;
             EWrite Stderr [Str "Error: Recvfrom failed. "; Errno]]
| turn_empty d from :
    delivered 1023 d = [] ->
    turn fd [ERecvfrom fd 1023 0 SIZEOF_SOCKADDR_IN (Some (d, from));
             EWrite Stdout [Str "Received empty datagram."]]
| turn_send_failed d from :
    delivered 1023 d <> [] ->
    turn fd [ERecvfrom fd 1023 0 SIZEOF_SOCKADDR_IN (Some (d, from));
             EWrite Stdout (received_line from d);
             ESendto fd udp_reply 0 from SIZEOF_SOCKADDR_IN None;
             EWrite Stderr [Str "Error: Sendto failed. "; Errno]]
| turn_replied d from n :
    delivered 1023 d <> [] ->
    turn fd [ERecvfrom fd 1023 0 SIZEOF_SOCKADDR_IN (Some (d, from));
             EWrite Stdout (received_line from d);
             ESendto fd udp_reply 0 from SIZEOF_SOCKADDR_IN (Some n);
             EWrite Stdout
               [Str "Response sent to "; Ip (sin_addr from); Str ":";
                Num (ntohs (sin_port from)); Str ": "; CStr udp_reply;
                Str " ("; Num (Z.of_nat n); Str " bytes)"]].

(** A turn that has started and is not over. *)
Definition unfinished (fd : Z) (tr : list event) : Prop :=
  exists more, more <> [] /\ turn fd (tr ++ more).

(** The message the datagram server holds in [response_message]. *)
Definition udp_message : list byte := literal "Hello from UDP server!".

(** The locals keep the shape the loop needs: an array of [BUFFER_SIZE]
    bytes and the size of an address. *)
Definition locals_ok (l : udp_server.locals) : Prop :=
  List.length (udp_server.buffer l) = 1024%nat
  /\ udp_server.client_address_len l = SIZEOF_SOCKADDR_IN.

(** The warning that follows a failed [setsockopt]. *)
Definition reuse_warning (ok : bool) : list event :=
  if ok then []
  else [EWrite Stderr [Str "Warning: setsockopt SO_REUSEADDR failed. "; Errno]].

(** The calls of the datagram server up to its loop, when its socket is
    [n] and the bind succeeds. *)
Definition udp_setup (n : nat) (reuse : bool) : list event :=
  [ESocket AF_INET SOCK_DGRAM 0 (Some n);
   EWrite Stdout [Str "Server socket created successfully."];
   ESetsockopt (Z.of_nat n) SOL_SOCKET SO_REUSEADDR 1 SIZEOF_INT reuse]
  ++ reuse_warning reuse
  ++ [EBind (Z.of_nat n)
            {| sin_family := AF_INET; sin_port := htons 8080;
               sin_addr := INADDR_ANY |} SIZEOF_SOCKADDR_IN true;
      EWrite Stdout [Str "Socket bound to port "; Num 8080];
      EWrite Stdout [Str "UDP Server listening on port "; Num 8080; Str "..."]].

(** The calls of the datagram server when the bind fails. *)
Definition udp_unbound (n : nat) (reuse cl : bool) : list event :=
  [ESocket AF_INET SOCK_DGRAM 0 (Some n);
   EWrite Stdout [Str "Server socket created successfully."];
   ESetsockopt (Z.of_nat n) SOL_SOCKET SO_REUSEADDR 1 SIZEOF_INT reuse]
  ++ reuse_warning reuse
  ++ [EBind (Z.of_nat n)
            {| sin_family := AF_INET; sin_port := htons 8080;
               sin_addr := INADDR_ANY |} SIZEOF_SOCKADDR_IN false;
      EWrite Stderr [Str "Error: Bind failed. "; Errno];
      EClose (Z.of_nat n) cl].

(** The calls of the datagram server when it gets no socket. *)
Definition udp_no_socket : list event :=
  [ESocket AF_INET SOCK_DGRAM 0 None;
   EWrite Stderr [Str "Error: Could not create socket. "; Errno]].

(** A call the datagram server makes outside its loop. *)
Definition setup_call (ev : event) : Prop :=
  match ev with
  | ESocket _ _ _ _ | ESetsockopt _ _ _ _ _ _ | EBind _ _ _ _
  | EWrite _ _ | EClose _ _ => True
  | _ => False
  end.

(** The bytes of the answer of the stream server. *)
Definition tcp_reply : list byte :=
  list_byte_of_string "Hello from TCP server!".

(** What each [send] and [sendto] of [tr] returns in C; a [send] that
    ends in SIGPIPE returns nothing. *)
Definition send_returns (tr : list event) : list Z :=
  flat_map (fun ev => match ev with
                      | ESend _ _ _ (SendReturns r) => [libc.ret_count r]
                      | ESendto _ _ _ _ _ r => [libc.ret_count r]
                      | _ => []
                      end) tr.

(** A [listen] that succeeded. *)
Definition listening (ev : event) : bool :=
  match ev with EListen _ _ true => true | _ => false end.

(** A call of the set-up of a program that failed: no socket, no bind,
    no listen, no connection, or an address that is not accepted. *)
Definition setup_failure (ev : event) : bool :=
  match ev with
  | ESocket _ _ _ None | EBind _ _ _ false | EListen _ _ false
  | EAccept _ _ None | EConnect _ _ _ false
  | EInetPton _ _ PtonMalformed | EInetPton _ _ PtonNoFamily => true
  | _ => false
  end.




(** A failure of the datagram server before its loop: of [socket], of
    [setsockopt] or of [bind]. *)
Definition init_failure (ev : event) : bool :=
  match ev with
  | ESocket _ _ _ None | ESetsockopt _ _ _ _ _ false | EBind _ _ _ false => true
  | _ => false
  end.

(** A failure of [socket] or of [bind]. *)
Definition fatal_failure (ev : event) : bool :=
  match ev with
  | ESocket _ _ _ None | EBind _ _ _ false => true
  | _ => false
  end.

(** Where each [sendto] of [tr] goes. *)
Definition destinations (tr : list event) : list sockaddr_in :=
  flat_map (fun ev => match ev with
                      | ESendto _ _ _ dest _ _ => [dest]
                      | _ => []
                      end) tr.

(** A call the datagram server makes in its loop. *)
Definition loop_call (ev : event) : Prop :=
  match ev with
  | ERecvfrom _ _ _ _ _ | ESendto _ _ _ _ _ _ | EWrite _ _ => True
  | _ => False
  end.

(** A run stays inside an array of [size] bytes: it makes no access
    outside an array, each of its receives asks for [size - 1] bytes,
    and what a receive returns, where the terminator is then written, is
    below [size]. *)
Definition within_buffer {W R} (size : Z) (r : result W R) : Prop :=
  (forall i, outcome_of r <> Undefined i)
  /\ Forall (fun len => len = size - 1) (receive_lengths (trace_of r))
  /\ Forall (fun n => n <= size - 1 < size) (receive_returns (trace_of r)).

(** The receives of a trace are as specified for a buffer of [size]
    bytes: each asks for [size - 1] bytes, the bytes taken are what is
    shown next, and no payload that is sent holds a NUL. *)
Definition receives_as_specified (size : Z) (tr : list event) : Prop :=
  Forall (fun len => len = size - 1) (receive_lengths tr)
  /\ shows_received tr
  /\ Forall (fun p => terminated p = false) (sent tr).

(* ===================================================================== *)
(** ** Monitors of a trace *)
(* ===================================================================== *)

(** A monitor reads a trace call by call from a state; [None] is a
    call it refuses. *)
Fixpoint accepts {S : Type} (step : S -> event -> option S) (s : S)
         (tr : list event) : option S :=
  match tr with
  | [] => Some s
  | ev :: rest =>
      match step s ev with
      | Some s' => accepts step s' rest
      | None => None
      end
  end.

Definition holds (fd : Z) (held : list Z) : bool := existsb (Z.eqb fd) held.

(** The descriptors a process holds, call by call; a call on a
    descriptor that is not held is refused. *)
Definition uses (held : list Z) (ev : event) : option (list Z) :=
  match ev with
  | ESocket _ _ _ (Some n) => Some (Z.of_nat n :: held)
  | ESocket _ _ _ None => Some held
  | EAccept fd _ r =>
      if holds fd held
      then Some match r with
                | Some (c, _) => Z.of_nat c :: held
                | None => held
                end
      else None
  | EClose fd _ => if holds fd held then Some (remove_first fd held) else None
  | ESetsockopt fd _ _ _ _ _ | EBind fd _ _ _ | EListen fd _ _
  | EConnect fd _ _ _ | ESend fd _ _ _ | ERecv fd _ _ _
  | ESendto fd _ _ _ _ _ | ERecvfrom fd _ _ _ _ =>
      if holds fd held then Some held else None
  | EInetPton _ _ _ | EWrite _ _ => Some held
  end.

(** A call, other than [close], that failed. *)
Definition failed (ev : event) : bool :=
  match ev with
  | ESocket _ _ _ None | ESetsockopt _ _ _ _ _ false | EBind _ _ _ false
  | EListen _ _ false | EAccept _ _ None | EConnect _ _ _ false
  | ESend _ _ _ (SendReturns None) | ERecv _ _ _ None
  | ESendto _ _ _ _ _ None
  | ERecvfrom _ _ _ _ None
  | EInetPton _ _ PtonMalformed | EInetPton _ _ PtonNoFamily => true
  | _ => false
  end.

Definition is_errno (p : piece) : bool :=
  match p with Errno => true | _ => false end.

(** Reports of failures: a failed call is followed at once by a line on
    the error stream that gives the reason, and the error stream gets no
    other line.  The state tells whether a report is due. *)
Definition reports (due : bool) (ev : event) : option bool :=
  match ev with
  | EWrite Stderr text =>
      if due && existsb is_errno text then Some false else None
  | _ => if due then None else Some (failed ev)
  end.

(** [preceded p q tr]: no call that satisfies [q] comes in [tr] before
    a call that satisfies [p]. *)
Fixpoint preceded (p q : event -> bool) (tr : list event) : bool :=
  match tr with
  | [] => true
  | ev :: rest => if p ev then true else negb (q ev) && preceded p q rest
  end.

(** Kinds of calls and of their results. *)
Definition created (ev : event) : bool :=
  match ev with ESocket _ _ _ (Some _) => true | _ => false end.
Definition bound (ev : event) : bool :=
  match ev with EBind _ _ _ true => true | _ => false end.
Definition accepted (ev : event) : bool :=
  match ev with EAccept _ _ (Some _) => true | _ => false end.
Definition validated (ev : event) : bool :=
  match ev with EInetPton _ _ (PtonOk _) => true | _ => false end.
Definition connected (ev : event) : bool :=
  match ev with EConnect _ _ _ true => true | _ => false end.
Definition sent_ok (ev : event) : bool :=
  match ev with
  | ESend _ _ _ (SendReturns (Some _)) | ESendto _ _ _ _ _ (Some _) => true
  | _ => false
  end.
Definition got_bytes (ev : event) : bool :=
  match ev with
  | ERecv _ len _ r => 0 <? received len r
  | ERecvfrom _ len _ _ r => 0 <? received len (option_map fst r)
  | _ => false
  end.
Definition is_setsockopt (ev : event) : bool :=
  match ev with ESetsockopt _ _ _ _ _ _ => true | _ => false end.
Definition is_bind (ev : event) : bool :=
  match ev with EBind _ _ _ _ => true | _ => false end.
Definition is_listen (ev : event) : bool :=
  match ev with EListen _ _ _ => true | _ => false end.
Definition is_accept (ev : event) : bool :=
  match ev with EAccept _ _ _ => true | _ => false end.
Definition is_connect (ev : event) : bool :=
  match ev with EConnect _ _ _ _ => true | _ => false end.
Definition is_send (ev : event) : bool :=
  match ev with ESend _ _ _ _ | ESendto _ _ _ _ _ _ => true | _ => false end.
Definition is_receive (ev : event) : bool :=
  match ev with ERecv _ _ _ _ | ERecvfrom _ _ _ _ _ => true | _ => false end.

(** Descriptors of the calls made on a listening socket, of the
    transfers, and of the sockets created and accepted. *)
Definition control_fds (tr : list event) : list Z :=
  flat_map (fun ev => match ev with
                      | ESetsockopt fd _ _ _ _ _ | EBind fd _ _ _
                      | EListen fd _ _ | EAccept fd _ _ => [fd]
                      | _ => []
                      end) tr.

Definition transfer_fds (tr : list event) : list Z :=
  flat_map (fun ev => match ev with
                      | ESend fd _ _ _ | ERecv fd _ _ _ => [fd]
                      | _ => []
                      end) tr.

Definition socket_fds (tr : list event) : list Z :=
  flat_map (fun ev => match ev with
                      | ESocket _ _ _ (Some n) => [Z.of_nat n]
                      | _ => []
                      end) tr.

Definition accepted_fds (tr : list event) : list Z :=
  flat_map (fun ev => match ev with
                      | EAccept _ _ (Some (n, _)) => [Z.of_nat n]
                      | _ => []
                      end) tr.

(** The addresses [inet_pton] produced. *)
Definition validated_addresses (tr : list event) : list Z :=
  flat_map (fun ev => match ev with
                      | EInetPton _ _ (PtonOk a) => [a]
                      | _ => []
                      end) tr.

(** Where each [connect] of [tr] goes. *)
Definition connect_targets (tr : list event) : list sockaddr_in :=
  flat_map (fun ev => match ev with
                      | EConnect _ addr _ _ => [addr]
                      | _ => []
                      end) tr.

(** The bytes of the requests of the clients. *)
Definition tcp_request : list byte :=
  list_byte_of_string "Hello from TCP client!".

Definition udp_request : list byte :=
  list_byte_of_string "Hello from UDP client!".

(** A receive that did not fail. *)
Definition receive_ok (ev : event) : bool :=
  match ev with
  | ERecv _ _ _ (Some _) | ERecvfrom _ _ _ _ (Some _) => true
  | _ => false
  end.

(** [seen x] holds of every [x]: it brings a run into a goal, so that
    the answers of the operating system along that run get their names
    before a statement about it is chosen. *)
Definition seen {A : Type} (x : A) : Prop := True.

(* ===================================================================== *)
(** ** How a run ends *)
(* ===================================================================== *)

(** A [send] that found the connection broken by the peer. *)
Definition broken_pipe (ev : event) : bool :=
  match ev with ESend _ _ _ SendBroken => true | _ => false end.

(** The end of a process inside [send]: it is terminated by SIGPIPE,
    the send is the last call it made, and it has closed none of the
    descriptors it was handed. *)
Definition dies_in_send {W} (r : result W Z) : Prop :=
  outcome_of r = Killed SIGPIPE
  /\ (exists before fd payload,
        trace_of r = before ++ [ESend fd payload 0 SendBroken])
  /\ closed_fds (trace_of r) = []
  /\ held [] (trace_of r) = rev (opened_fds (trace_of r)).



Definition is_socket (ev : event) : bool :=
  match ev with ESocket _ _ _ _ => true | _ => false end.

(** Calls to [socket]. *)
Definition socket_calls (tr : list event) : nat :=
  List.length (filter is_socket tr).

(** The run is over. *)
Definition ended {R} (o : outcome R) : Prop :=
  (exists c, o = Returned c) \/ o = Killed SIGPIPE.

(* ===================================================================== *)
(** ** The answers of the datagram server *)
(* ===================================================================== *)

(** Monitor of the answers.  The state is the sender that waits for its
    answer.  A datagram of positive length makes its sender wait; the
    next send has to go to the sender that waits, and ends the wait; a
    receive while a sender waits is refused, and so is a send while none
    waits. *)
Definition replies (pending : option sockaddr_in) (ev : event)
  : option (option sockaddr_in) :=
  match ev with
  | ERecvfrom _ len _ _ r =>
      match pending with
      | Some _ => None
      | None =>
          Some match r with
               | Some (d, from) =>
                   if 0 <? received len (Some d) then Some from else None
               | None => None
               end
      end
  | ESendto _ _ _ dest _ _ =>
      match pending with
      | Some from => if sockaddr_eqb dest from then Some None else None
      | None => None
      end
  | _ => Some pending
  end.

(** A [setsockopt] that failed. *)
Definition reuse_failed (ev : event) : bool :=
  match ev with ESetsockopt _ _ _ _ _ false => true | _ => false end.

(** The calls of the datagram server up to its bind, when its socket is
    [n] and [setsockopt] fails. *)
Definition udp_warned (n : nat) (ok : bool) : list event :=
  [ESocket AF_INET SOCK_DGRAM 0 (Some n);
   EWrite Stdout [Str "Server socket created successfully."];
   ESetsockopt (Z.of_nat n) SOL_SOCKET SO_REUSEADDR 1 SIZEOF_INT false;
   EWrite Stderr [Str "Warning: setsockopt SO_REUSEADDR failed. "; Errno];
   EBind (Z.of_nat n)
         {| sin_family := AF_INET; sin_port := htons 8080;
            sin_addr := INADDR_ANY |} SIZEOF_SOCKADDR_IN ok].

(* ===================================================================== *)
(** ** The order of the calls *)
(* ===================================================================== *)

Definition is_close (ev : event) : bool :=
  match ev with EClose _ _ => true | _ => false end.

(** A [bind] that failed. *)
Definition bind_failed (ev : event) : bool :=
  match ev with EBind _ _ _ false => true | _ => false end.

(** The order of the calls of the stream server: options and address
    are set on a socket that exists, [listen] follows a bind that
    succeeded, [accept] a listen that succeeded, the receive an accept
    that succeeded, and the send a receive that took bytes. *)
Definition server_order (tr : list event) : bool :=
  preceded created is_setsockopt tr && preceded created is_bind tr
  && preceded bound is_listen tr && preceded listening is_accept tr
  && preceded accepted is_receive tr && preceded got_bytes is_send tr.

(** The order of the calls of the datagram server before its loop and
    into it: options and address are set on a socket that exists, and
    nothing is received or sent before the bind succeeded. *)
Definition datagram_server_order (tr : list event) : bool :=
  preceded created is_setsockopt tr && preceded created is_bind tr
  && preceded bound is_receive tr && preceded bound is_send tr.

(** The order of the calls of the stream client: it connects only to
    an address that is validated, sends only on a connection that
    stands, and receives only after its send succeeded. *)
Definition stream_client_order (tr : list event) : bool :=
  preceded validated is_connect tr && preceded connected is_send tr
  && preceded sent_ok is_receive tr.

(** The order of the calls of the datagram client: it never connects,
    sends only to an address that is validated, and receives only after
    its send succeeded. *)
Definition datagram_client_order (tr : list event) : bool :=
  negb (existsb is_connect tr) && preceded validated is_send tr
  && preceded sent_ok is_receive tr.

(** The steps of the stream server are taken: in a run that is over, a
    call of each kind is made exactly when the step before it
    succeeded. *)
Definition server_steps (tr : list event) : Prop :=
  existsb is_socket tr = true
  /\ existsb is_setsockopt tr = existsb created tr
  /\ existsb is_bind tr = existsb created tr
  /\ existsb is_listen tr = existsb bound tr
  /\ existsb is_accept tr = existsb listening tr
  /\ existsb is_receive tr = existsb accepted tr
  /\ existsb is_send tr = existsb got_bytes tr.

(** The steps of the datagram server up to its first receive. *)
Definition datagram_server_steps (tr : list event) : Prop :=
  existsb is_socket tr = true
  /\ existsb is_setsockopt tr = existsb created tr
  /\ existsb is_bind tr = existsb created tr
  /\ existsb is_receive tr = existsb bound tr.

Definition is_inet_pton (ev : event) : bool :=
  match ev with EInetPton _ _ _ => true | _ => false end.

(** The steps of the clients. *)
Definition stream_client_steps (tr : list event) : Prop :=
  existsb is_socket tr = true
  /\ existsb is_inet_pton tr = existsb created tr
  /\ existsb is_connect tr = existsb validated tr
  /\ existsb is_send tr = existsb connected tr
  /\ existsb is_receive tr = existsb sent_ok tr.

Definition datagram_client_steps (tr : list event) : Prop :=
  existsb is_socket tr = true
  /\ existsb is_inet_pton tr = existsb created tr
  /\ existsb is_send tr = existsb validated tr
  /\ existsb is_receive tr = existsb sent_ok tr.

(** The exit code of a client that has returned: 0 exactly when its
    receive did not fail. *)
Definition succeeds_on_any_reply (tr : list event) (o : outcome Z) : Prop :=
  match o with
  | Returned c => c = 0 <-> existsb receive_ok tr = true
  | _ => True
  end.

(* ===================================================================== *)
(** * Properties *)
(* ===================================================================== *)

(** ** How [run] computes *)

Lemma observe_bind {R Q} (t : itree E R) (k : R -> itree E Q) :
  observe (ITree.bind t k) =
  observe (match observe t with
           | RetF r => k r
           | TauF t' => Tau (ITree.bind t' k)
           | VisF e h => Vis e (fun x => ITree.bind (h x) k)
           end).
Proof. reflexivity. Qed.

Lemma run_unfold {W R} (h : os W) fuel (t : itree E R) w :
  run h fuel t w =
  match observe t with
  | RetF r => ([], Returned r, w, fuel)
  | TauF t' => match fuel with O => ([], Running, w, O) | S f => run h f t' w end
  | VisF e k =>
      match e with
      | inl1 c =>
          match fuel with
          | O => ([], Running, w, O)
          | S f => let (w', a) := h _ c w in emit (log c a) (run h f (k a) w')
          end
      | inr1 (OutOfBounds i) => ([], Undefined i, w, fuel)
      | inr1 (Signal s) => ([], Killed s, w, fuel)
      end
  end.
Proof. destruct fuel; reflexivity. Qed.

Lemma run_bind {W R Q} (h : os W) (t : itree E R) (k : R -> itree E Q) fuel w :
  run h fuel (ITree.bind t k) w
  = then_run (run h fuel t w) (fun x w' f' => run h f' (k x) w').
Proof.
  revert t w. induction fuel as [|f IH]; intros t w;
    rewrite (run_unfold h _ (ITree.bind t k)), (run_unfold h _ t), observe_bind;
    destruct (observe t) as [r|t'|X e k0]; cbn [observe _observe then_run].
  - change (run h 0 (k r) w = then_run ([], Returned r, w, 0%nat) (fun x w' f' => run h f' (k x) w')).
    cbn [then_run]. destruct (run h 0 (k r) w) as [[[tr o] w1] f1]. reflexivity.
  - reflexivity.
  - destruct e as [c|[i|s]]; reflexivity.
  - change (run h (S f) (k r) w = then_run ([], Returned r, w, S f) (fun x w' f' => run h f' (k x) w')).
    cbn [then_run]. destruct (run h (S f) (k r) w) as [[[tr o] w1] f1]. reflexivity.
  - apply IH.
  - destruct e as [c|[i|s]]; [|reflexivity|reflexivity].
    destruct (h X c w) as [w' a]. rewrite IH. unfold then_run, emit.
    destruct (run h f (k0 a) w') as [[[tr o] w1] f1]. destruct o; try reflexivity.
    destruct (run h f1 (k r) w1) as [[[tr2 o2] w2] f2]. reflexivity.
Qed.

Lemma run_ret {W R} (h : os W) fuel (x : R) w :
  run h fuel (Ret x) w = ([], Returned x, w, fuel).
Proof. destruct fuel; reflexivity. Qed.

Lemma run_fault {W R} (h : os W) fuel i w :
  run h fuel (fault i : itree E R) w = ([], Undefined i, w, fuel).
Proof. destruct fuel; reflexivity. Qed.

Lemma run_raise {W R} (h : os W) fuel s w :
  run h fuel (raise s : itree E R) w = ([], Killed s, w, fuel).
Proof. destruct fuel; reflexivity. Qed.

Lemma run_tau {W R} (h : os W) fuel (t : itree E R) w :
  run h (S fuel) (Tau t) w = run h fuel t w.
Proof. reflexivity. Qed.

Lemma run_sys {W T} (h : os W) fuel (e : sysE T) w :
  run h (S fuel) (sys e) w
  = let (w', a) := h _ e w in ([log e a], Returned a, w', fuel).
Proof.
  rewrite run_unfold. cbn. destruct (h T e w) as [w' a]. rewrite run_ret. reflexivity.
Qed.

Lemma run_sys_0 {W T} (h : os W) (e : sysE T) w :
  run h 0 (sys e) w = ([], Running, w, 0%nat).
Proof. reflexivity. Qed.

Lemma run_iter {W I R} (h : os W) fuel (body : I -> itree E (I + R)) (i : I) w :
  run h fuel (ITree.iter body i) w
  = run h fuel (ITree.bind (body i)
                 (fun lr => match lr with
                            | inl l => Tau (ITree.iter body l)
                            | inr r => Ret r
                            end)) w.
Proof. rewrite !(run_unfold h fuel). reflexivity. Qed.

(** *** Arrays of bytes *)

Lemma length_zeroed n : List.length (zeroed n) = Z.to_nat n.
Proof. apply repeat_length. Qed.

Lemma length_delivered_le len d :
  (List.length (delivered len d) <= Z.to_nat len)%nat.
Proof. unfold delivered. rewrite length_firstn. apply Nat.le_min_l. Qed.

Lemma length_blit got b :
  (List.length got <= List.length b)%nat ->
  List.length (blit got b) = List.length b.
Proof. intros H. unfold blit. rewrite length_app, length_skipn. lia. Qed.

Lemma store_blit got b v :
  (List.length got < List.length b)%nat ->
  store (blit got b) (Z.of_nat (List.length got)) v
  = Some (got ++ v :: skipn (S (List.length got)) b).
Proof.
  intros H. unfold store. rewrite length_blit by lia.
  replace ((0 <=? Z.of_nat (List.length got)) && (Z.of_nat (List.length got) <? Z.of_nat (List.length b)))
    with true by (symmetry; apply andb_true_iff; split; [apply Z.leb_le | apply Z.ltb_lt]; lia).
  rewrite Nat2Z.id. unfold blit. f_equal.
  rewrite firstn_app, firstn_all, Nat.sub_diag, firstn_O, app_nil_r.
  f_equal. f_equal.
  rewrite skipn_app. rewrite (skipn_all2 got) by lia. cbn [app].
  replace (S (List.length got) - List.length got)%nat with 1%nat by lia.
  rewrite skipn_skipn. f_equal.
Qed.

Lemma terminated_app got rest : terminated (got ++ x00 :: rest) = true.
Proof.
  unfold terminated. rewrite existsb_app. cbn. apply orb_true_r.
Qed.

Lemma until_nul_app got rest : until_nul (got ++ x00 :: rest) = until_nul got.
Proof.
  induction got as [|x got IH]; cbn; [reflexivity|].
  destruct (Byte.eqb x x00); [reflexivity | now rewrite IH].
Qed.

Arguments run : simpl never.
Arguments zeroed : simpl never.
Arguments literal : simpl never.
Arguments strlen : simpl never.
Arguments until_nul : simpl never.
Arguments htons : simpl never.
Arguments ntohs : simpl never.
Arguments blit : simpl never.
Arguments delivered : simpl never.
Arguments received : simpl never.

(** *** Runs of the C functions *)

Section Calls.
Context {W : Type} (h : os W).

Lemma run_recv fd buf len fl fuel w :
  (Z.to_nat len <= List.length buf)%nat ->
  run h (S fuel) (libc.recv fd buf len fl) w
  = let (w', r) := h _ (SysRecv fd len fl) w in
    ([ERecv fd len fl r],
     Returned (received len r,
               match r with
               | Some d => blit (delivered len d) buf
               | None => buf
               end), w', fuel).
Proof.
  intros Hfit. unfold libc.recv. rewrite run_bind, run_sys.
  destruct (h _ (SysRecv fd len fl) w) as [w' [d|]]; cbn [then_run log].
  - pose proof (length_delivered_le len d).
    replace (List.length (delivered len d) <=? List.length buf)%nat with true
      by (symmetry; apply Nat.leb_le; lia).
    rewrite run_ret. reflexivity.
  - rewrite run_ret. reflexivity.
Qed.

Lemma run_recvfrom fd buf len fl addr addrlen fuel w :
  (Z.to_nat len <= List.length buf)%nat ->
  run h (S fuel) (libc.recvfrom fd buf len fl addr addrlen) w
  = let (w', r) := h _ (SysRecvfrom fd len fl addrlen) w in
    ([ERecvfrom fd len fl addrlen r],
     Returned (match r with
               | Some (d, from) =>
                   (received len (Some d), blit (delivered len d) buf,
                    from, SIZEOF_SOCKADDR_IN)
               | None => (-1, buf, addr, addrlen)
               end), w', fuel).
Proof.
  intros Hfit. unfold libc.recvfrom. rewrite run_bind, run_sys.
  destruct (h _ (SysRecvfrom fd len fl addrlen) w) as [w' [[d from]|]];
    cbn [then_run log].
  - pose proof (length_delivered_le len d).
    replace (List.length (delivered len d) <=? List.length buf)%nat with true
      by (symmetry; apply Nat.leb_le; lia).
    rewrite run_ret. reflexivity.
  - rewrite run_ret. reflexivity.
Qed.

Lemma run_assign_blit got b v fuel w :
  (List.length got < List.length b)%nat ->
  run h fuel (libc.assign (blit got b) (Z.of_nat (List.length got)) v) w
  = ([], Returned (got ++ v :: skipn (S (List.length got)) b), w, fuel).
Proof.
  intros H. unfold libc.assign. rewrite store_blit by exact H. apply run_ret.
Qed.

Lemma run_c_str_app got rest fuel w :
  run h fuel (libc.c_str (got ++ x00 :: rest)) w
  = ([], Returned (until_nul got), w, fuel).
Proof.
  unfold libc.c_str. rewrite terminated_app, until_nul_app. apply run_ret.
Qed.

End Calls.

Arguments sys : simpl never.
Arguments fault : simpl never.
Arguments raise : simpl never.
Arguments libc.recv : simpl never.
Arguments libc.recvfrom : simpl never.
Arguments libc.assign : simpl never.
Arguments libc.c_str : simpl never.
Arguments udp_reply : simpl never.
Arguments skipn : simpl never.
Arguments firstn : simpl never.

Lemma run_bind_0_sys {W T R} (h : os W) (e : sysE T) (k : T -> itree E R) w :
  run h 0 (ITree.bind (sys e) k) w = ([], Running, w, 0%nat).
Proof. reflexivity. Qed.

Lemma run_recv_0 {W} (h : os W) fd buf len fl w :
  run h 0 (libc.recv fd buf len fl) w = ([], Running, w, 0%nat).
Proof. reflexivity. Qed.

Lemma run_recvfrom_0 {W} (h : os W) fd buf len fl addr addrlen w :
  run h 0 (libc.recvfrom fd buf len fl addr addrlen) w = ([], Running, w, 0%nat).
Proof. reflexivity. Qed.

Lemma run_tau_0 {W R} (h : os W) (t : itree E R) w :
  run h 0 (Tau t) w = ([], Running, w, 0%nat).
Proof. reflexivity. Qed.

Lemma of_nat_eqb_m1 n : (Z.of_nat n =? -1) = false.
Proof. apply Z.eqb_neq. lia. Qed.

Lemma length_terminated (got b : list byte) v :
  (List.length got < List.length b)%nat ->
  List.length (got ++ v :: skipn (S (List.length got)) b) = List.length b.
Proof. intros H. rewrite length_app. cbn [List.length]. rewrite length_skipn. lia. Qed.

Lemma delivered_nil len d :
  (Z.of_nat (List.length (delivered len d)) =? 0) = true -> delivered len d = [].
Proof.
  intros H. apply Z.eqb_eq in H. destruct (delivered len d); [reflexivity | cbn in H; lia].
Qed.

Lemma delivered_not_nil len d :
  (Z.of_nat (List.length (delivered len d)) =? 0) = false -> delivered len d <> [].
Proof.
  intros H Hnil. rewrite Hnil in H. cbn in H. discriminate.
Qed.

(** *** Symbolic execution *)

Ltac fits :=
  unfold tcp_server.BUFFER_SIZE, tcp_client.BUFFER_SIZE,
    udp_client.BUFFER_SIZE, udp_server.BUFFER_SIZE in *;
  rewrite ?length_zeroed;
  try match goal with
      | |- context [delivered ?n ?d] => pose proof (length_delivered_le n d)
      end;
  lia.

Ltac unfold_calls :=
  unfold libc.socket, libc.setsockopt, libc.bind, libc.listen, libc.accept,
    libc.connect, libc.send, libc.sendto, libc.close, libc.inet_pton,
    libc.cout, libc.cerr.

(** The answer of the operating system to a call: a new one is named
    and its equation kept, one that is known is used again. *)
Ltac answer h :=
  match goal with
  | |- context [h ?T ?e ?w] =>
      first [ match goal with E : h T e w = _ |- _ => rewrite E end
            | let w' := fresh "w" in
              let a := fresh "a" in
              destruct (h T e w) as [w' a] eqn:? ]
  end.

Ltac answer_cases h :=
  match goal with
  | |- context [h ?T ?e ?w] =>
      first [ match goal with E : h T e w = _ |- _ => rewrite E end
            | let w' := fresh "w" in
              let a := fresh "a" in
              destruct (h T e w) as [w' a] eqn:?; destruct a as [?|] ]
  end.

(** A call needs a step: with none left the run stops there. *)
Ltac on_call f stop go :=
  lazymatch f with
  | S _ => go
  | O => stop
  | _ => is_var f; destruct f; [stop | go]
  end.

Ltac exec1 h :=
  match goal with
  | |- context [run h ?f ?t _] =>
      lazymatch t with
      | ITree.bind (sys _) _ =>
          on_call f ltac:(rewrite run_bind_0_sys)
                    ltac:(rewrite run_bind, run_sys; answer h)
      | ITree.bind _ _ => rewrite run_bind
      | Ret _ => rewrite run_ret
      | fault _ => rewrite run_fault
      | raise _ => rewrite run_raise
      | libc.assign _ _ _ => rewrite run_assign_blit by fits
      | libc.c_str _ => rewrite run_c_str_app
      | libc.recv _ _ _ _ =>
          on_call f ltac:(rewrite run_recv_0)
                    ltac:(rewrite run_recv by fits; answer_cases h)
      | libc.recvfrom _ _ _ _ _ _ =>
          on_call f ltac:(rewrite run_recvfrom_0)
                    ltac:(rewrite run_recvfrom by fits; answer_cases h)
      | sys _ =>
          on_call f ltac:(rewrite run_sys_0) ltac:(rewrite run_sys; answer h)
      | (if ?c then _ else _) =>
          lazymatch c with
          | (libc.ret_count ?a =? _) => destruct a
          | (libc.ret_status ?a =? _) => destruct a
          | (Z.of_nat _ =? -1) => rewrite of_nat_eqb_m1
          | _ => destruct c eqn:?
          end
      | (match ?a with _ => _ end) =>
          first [ is_var a; destruct a
                | lazymatch a with
                  | match ?b with _ => _ end => is_var b; destruct b
                  end ]
      end
  end; cbn; unfold received; cbn.

(** The statement about the run is set aside as [Q] while the run is
    computed, so that simplification leaves it as written. *)
Ltac lock_run h :=
  match goal with
  | |- context [run h ?f ?t ?w] => pattern (run h f t w)
  end;
  match goal with
  | |- ?P _ => let Q := fresh "Q" in remember P as Q
  end.

Ltac unlock_run :=
  match goal with
  | H : ?Q = (fun _ => _) |- _ => subst Q; cbv beta
  end.

Ltac exec_steps h := cbn [Nat.add]; unfold_calls; repeat (exec1 h).

Ltac exec h := lock_run h; exec_steps h; unlock_run.

(** ** The loop of the datagram server *)

Lemma udp_reply_sent :
  firstn (Z.to_nat (strlen udp_message)) udp_message = udp_reply.
Proof. reflexivity. Qed.

Lemma udp_reply_shown : until_nul udp_message = udp_reply.
Proof. reflexivity. Qed.

Lemma unfinished_nil fd : unfinished fd [].
Proof.
  eexists. split; [|apply turn_recv_failed]. discriminate.
Qed.

Lemma unfinished_received fd r :
  unfinished fd [ERecvfrom fd 1023 0 SIZEOF_SOCKADDR_IN r].
Proof.
  destruct r as [[d from]|].
  - destruct (delivered 1023 d) eqn:Hd.
    + eexists [_]. split; [discriminate|]. apply turn_empty. exact Hd.
    + eexists [_;_;_]. split; [discriminate|].
      apply (turn_send_failed fd d from). rewrite Hd. discriminate.
  - eexists [_]. split; [discriminate|]. apply turn_recv_failed.
Qed.

Lemma unfinished_shown fd d from :
  delivered 1023 d <> [] ->
  unfinished fd [ERecvfrom fd 1023 0 SIZEOF_SOCKADDR_IN (Some (d, from));
                 EWrite Stdout (received_line from d)].
Proof.
  intros Hd. eexists [_;_]. split; [discriminate|].
  apply (turn_send_failed fd d from Hd).
Qed.

Lemma unfinished_sent fd d from s :
  delivered 1023 d <> [] ->
  unfinished fd [ERecvfrom fd 1023 0 SIZEOF_SOCKADDR_IN (Some (d, from));
                 EWrite Stdout (received_line from d);
                 ESendto fd udp_reply 0 from SIZEOF_SOCKADDR_IN s].
Proof.
  intros Hd. destruct s as [n|].
  - eexists [_]. split; [discriminate|]. apply (turn_replied fd d from n Hd).
  - eexists [_]. split; [discriminate|]. apply (turn_send_failed fd d from Hd).
Qed.

(** One turn: with steps enough it is one of the four turns and asks
    for the next; with fewer it stops inside the turn. *)
Lemma loop_body_runs {W} (h : os W) fd l fuel w :
  locals_ok l ->
  let r := run h fuel (udp_server.loop_body fd udp_message l) w in
  (exists tr l' w' f',
      r = (tr, Returned (inl l'), w', f')
      /\ turn fd tr /\ locals_ok l' /\ (f' < fuel <= f' + 4)%nat)
  \/ (exists tr w' f',
         r = (tr, Running, w', f') /\ unfinished fd tr /\ (fuel < 4)%nat).
Proof.
  intros [Hlen Hal]. unfold udp_server.loop_body. rewrite Hal.
  exec h; rewrite ?udp_reply_sent, ?udp_reply_shown.
  all: try (right; eexists _, _, _; split; [reflexivity|]; split; [|lia];
            auto using unfinished_nil, unfinished_received, unfinished_shown,
              unfinished_sent, delivered_not_nil; fail).
  all: left; eexists _, _, _, _; split; [reflexivity|].
  all: split; [constructor; auto using delivered_nil, delivered_not_nil|].
  all: split; [split; cbn; [|reflexivity] | lia].
  all: rewrite ?length_terminated, ?length_blit by fits; assumption.
Qed.

(** The loop never ends: whatever the steps granted, the run is still
    going, and its trace is a sequence of whole turns followed by one
    that is not over.  The turns grow with the steps. *)
Lemma loop_runs {W} (h : os W) fd fuel :
  forall l w,
    locals_ok l ->
    exists turns rest w' f',
      run h fuel (ITree.iter (udp_server.loop_body fd udp_message) l) w
      = (List.concat turns ++ rest, Running, w', f')
      /\ Forall (turn fd) turns /\ unfinished fd rest
      /\ (fuel <= 5 * List.length turns + 4)%nat.
Proof.
  induction fuel as [fuel IH] using lt_wf_ind. intros l w Hok.
  rewrite run_iter, run_bind.
  destruct (loop_body_runs h fd l fuel w Hok)
    as [(tr & l' & w' & f' & Hr & Ht & Hok' & Hf) | (tr & w' & f' & Hr & Hu & Hf)];
    cbv zeta in Hr; rewrite Hr; cbn [then_run].
  - destruct f' as [|f'].
    + rewrite run_tau_0. exists [tr], [], w', 0%nat.
      cbn [List.concat]. rewrite !app_nil_r.
      repeat split; [auto | apply unfinished_nil | cbn [List.length]; lia].
    + rewrite run_tau.
      destruct (IH f' ltac:(lia) l' w' Hok') as (turns & rest & w2 & f2 & Hr2 & Hts & Hu & Hf2).
      rewrite Hr2. exists (tr :: turns), rest, w2, f2.
      cbn [List.concat]. rewrite app_assoc.
      repeat split; [auto | exact Hu | cbn [List.length]; lia].
  - exists [], tr, w', f'. cbn [List.concat app List.length].
    repeat split; [constructor | exact Hu | lia].
Qed.

Lemma locals_ok_start a :
  locals_ok {| udp_server.buffer := zeroed udp_server.BUFFER_SIZE;
               udp_server.client_address := a;
               udp_server.client_address_len := SIZEOF_SOCKADDR_IN |}.
Proof. split; [apply length_zeroed | reflexivity]. Qed.

Lemma udp_server_runs {W} (h : os W) a fuel w :
  let r := run h fuel (udp_server.main a) w in
  (outcome_of r = Running /\ Forall setup_call (trace_of r) /\ (fuel < 8)%nat)
  \/ (outcome_of r = Returned 1 /\ trace_of r = udp_no_socket)
  \/ (exists n reuse cl,
        outcome_of r = Returned 1 /\ trace_of r = udp_unbound n reuse cl)
  \/ (exists n reuse turns rest,
        outcome_of r = Running
        /\ trace_of r = udp_setup n reuse ++ List.concat turns ++ rest
        /\ Forall (turn (Z.of_nat n)) turns
        /\ unfinished (Z.of_nat n) rest
        /\ (fuel <= 5 * List.length turns + 11)%nat).
Proof.
  intros r; subst r. unfold udp_server.main. fold udp_message.
  lock_run h. exec_steps h;
    try match goal with
       | |- context [run h ?f (ITree.iter (udp_server.loop_body ?fd _) ?l) ?w] =>
           destruct (loop_runs h fd f l w (locals_ok_start a))
             as (turns & rest & w' & f' & Hr & Hts & Hu & Hf);
           rewrite Hr; cbn [then_run]
       end.
  all: repeat (exec1 h).
  all: unlock_run; cbn [trace_of outcome_of fst snd].
  all: first
         [ left; split; [reflexivity|]; split; [repeat constructor | lia]
         | right; left; split; reflexivity
         | do 2 right; left;
           first [ eexists _, true, _; split; reflexivity
                 | eexists _, false, _; split; reflexivity ]
         | do 3 right;
           first [ eexists _, true, turns, rest;
                   split; [reflexivity|]; split; [reflexivity|];
                   repeat split; [assumption | assumption | lia]
                 | eexists _, false, turns, rest;
                   split; [reflexivity|]; split; [reflexivity|];
                   repeat split; [assumption | assumption | lia] ] ].

Qed.

(** A run that returns does so with any larger grant of steps, and keeps
    what it did not use. *)
Lemma run_enough {W R} (h : os W) fuel :
  forall (t : itree E R) w tr x w' f',
    run h fuel t w = (tr, Returned x, w', f') ->
    (f' <= fuel)%nat
    /\ forall e, run h (fuel - f' + e) t w = (tr, Returned x, w', e).
Proof.
  induction fuel as [|f IH]; intros t w tr x w' f' H;
    rewrite run_unfold in H; destruct (observe t) as [r|t'|X e k] eqn:Ho.
  - injection H as <- <- <- <-. split; [lia|]. intros e. cbn [Nat.sub Nat.add].
    rewrite run_unfold, Ho. reflexivity.
  - discriminate H.
  - destruct e as [c|ft]; [discriminate H | clear Ho; destruct ft; discriminate H].
  - injection H as <- <- <- <-. split; [lia|]. intros e.
    rewrite Nat.sub_diag. cbn [Nat.add]. rewrite run_unfold, Ho. reflexivity.
  - apply IH in H. destruct H as [Hle He]. split; [lia|]. intros e.
    replace (S f - f' + e)%nat with (S (f - f' + e)) by lia.
    rewrite run_unfold, Ho. apply He.
  - destruct e as [c|ft]; [|clear Ho; destruct ft; discriminate H].
    destruct (h X c w) as [w1 a] eqn:Eh.
    destruct (run h f (k a) w1) as [[[tr1 o1] w2] f2] eqn:Er.
    cbn [emit] in H. injection H as <- -> <- <-.
    apply IH in Er. destruct Er as [Hle He]. split; [lia|]. intros e.
    replace (S f - f2 + e)%nat with (S (f - f2 + e)) by lia.
    rewrite run_unfold, Ho, Eh, He. reflexivity.
Qed.

Lemma loop_waits {W} (h : os W) fd l w :
  run h 0 (ITree.iter (udp_server.loop_body fd udp_message) l) w
  = ([], Running, w, 0%nat).
Proof. reflexivity. Qed.

(** At most three steps more bring the loop to the end of a turn. *)
Lemma loop_settles {W} (h : os W) fd fuel :
  forall l w,
    locals_ok l ->
    exists d turns w' f',
      (d <= 3)%nat
      /\ run h (fuel + d) (ITree.iter (udp_server.loop_body fd udp_message) l) w
         = (List.concat turns, Running, w', f')
      /\ Forall (turn fd) turns.
Proof.
  induction fuel as [fuel IH] using lt_wf_ind. intros l w Hok.
  destruct fuel as [|fuel].
  { exists 0%nat, [], w, 0%nat. split; [lia|]. split; [apply loop_waits | constructor]. }
  destruct (loop_body_runs h fd l 4 w Hok)
    as [(tr & l' & w' & f' & Hr & Ht & Hok' & Hf) | (tr & w' & f' & _ & _ & Hf)];
    [|lia].
  cbv zeta in Hr. apply run_enough in Hr. destruct Hr as [_ He].
  destruct (le_lt_dec (S fuel) (4 - f')) as [Hshort|Hlong].
  - exists (4 - f' - S fuel)%nat, [tr], w', 0%nat. split; [lia|].
    replace (S fuel + (4 - f' - S fuel))%nat with (4 - f' + 0)%nat by lia.
    rewrite run_iter, run_bind, He. cbn [then_run]. rewrite run_tau_0.
    cbn [List.concat]. rewrite !app_nil_r. split; [reflexivity | auto].
  - destruct (IH (S fuel - (4 - f') - 1)%nat ltac:(lia) l' w' Hok')
      as (d & turns & w2 & f2 & Hd & Hr2 & Hts).
    exists d, (tr :: turns), w2, f2. split; [exact Hd|].
    replace (S fuel + d)%nat
      with (4 - f' + S (S fuel - (4 - f') - 1 + d))%nat by lia.
    rewrite run_iter, run_bind, He. cbn [then_run]. rewrite run_tau, Hr2.
    split; [reflexivity | auto].
Qed.

(** The set-up of the datagram server, run with answers that are known,
    up to a point where no report is due. *)
Ltac settle_setup h d :=
  exists d; split; [lia|]; cbv zeta; cbn [Nat.add]; exec h;
  left; split; [repeat constructor | reflexivity].

Ltac settle_loop h Hloop g turns :=
  let d := fresh "d" in
  let Hd := fresh "Hd" in
  let Hr := fresh "Hr" in
  let Hts := fresh "Hts" in
  destruct (Hloop g) as (d & turns & ? & ? & Hd & Hr & Hts);
  exists d; split; [exact Hd|]; cbv zeta; cbn [Nat.add] in Hr |- *;
  lock_run h; exec_steps h; rewrite Hr; cbn [then_run]; unlock_run;
  cbn [trace_of outcome_of fst snd]; right;
  first [ eexists _, true, turns; split; [reflexivity | exact Hts]
        | eexists _, false, turns; split; [reflexivity | exact Hts] ].

(** At most three steps more bring the datagram server to a point where
    nothing is half done: in its set-up with no report due, or in its
    loop at the end of a turn. *)
Lemma udp_server_settles {W} (h : os W) a fuel w :
  exists d,
    (d <= 3)%nat
    /\ let tr := trace_of (run h (fuel + d) (udp_server.main a) w) in
       (Forall setup_call tr /\ accepts reports false tr = Some false)
       \/ (exists n reuse turns,
              tr = udp_setup n reuse ++ List.concat turns
              /\ Forall (turn (Z.of_nat n)) turns).
Proof.
  pose proof (I : seen (run h 7 (udp_server.main a) w)) as Hdry. revert Hdry.
  unfold udp_server.main. fold udp_message.
  exec h;
    try lazymatch goal with
        | |- seen ?x -> _ =>
            lazymatch x with
            | context [run h _ (ITree.iter (udp_server.loop_body ?fd _) ?l) ?w7] =>
                pose proof (fun g => loop_settles h fd g l w7 (locals_ok_start a))
                  as Hloop
            end
        end;
    intros _;
    destruct fuel as [|[|[|[|[|[|[|fuel]]]]]]];
    first [ solve [settle_setup h 0%nat] | solve [settle_setup h 1%nat]
          | solve [settle_loop h Hloop fuel turns]
          | solve [settle_loop h Hloop (S fuel) turns] ].
Qed.

(** ** The stream server *)

Lemma tcp_reply_sent :
  firstn (Z.to_nat (strlen (literal "Hello from TCP server!")))
         (literal "Hello from TCP server!") = tcp_reply.
Proof. reflexivity. Qed.

Ltac in_list := repeat (first [left; reflexivity | right]).

(** The last call of a trace that is known in full. *)
Ltac ends_in_send :=
  lazymatch goal with
  | |- exists before fd payload, ?tr = _ =>
      exists (removelast tr); eexists _, _; reflexivity
  end.



(** C9: the stream server makes one call to [socket]; it binds when it
    got a socket; it listens when the bind succeeded, once and with a
    backlog of 5; it calls [accept] when the listen succeeded, once and
    never a second time; and then the run ends. *)
Theorem tcp_server_accepts_once {W} (h : os W) a k w :
  let r := run h (18 + k) (tcp_server.main a) w in
  let tr := trace_of r in
  socket_calls tr = 1%nat
  /\ existsb is_bind tr = existsb created tr
  /\ listen_backlogs tr
     = (if existsb bound tr then [tcp_server.MAX_PENDING_CONNECTIONS] else [])
  /\ tcp_server.MAX_PENDING_CONNECTIONS = 5
  /\ accept_calls tr = (if existsb listening tr then 1%nat else 0%nat)
  /\ ended (outcome_of r).
Proof.
  intros r tr; subst tr r. unfold tcp_server.main, ended. exec h.
  all: cbn; repeat split; eauto.
Qed.

(** C2: the stream server receives once when it has accepted a
    connection, and not otherwise.  A receive that returns a negative
    value is reported as an error and nothing is sent; one that returns
    zero is reported as the peer having closed, on the output stream and
    not as an error, and nothing is sent; one that returns a positive
    value is answered by exactly one send, of the fixed reply.  That
    send returns, and then a negative value is reported as an error, or
    it finds the connection broken and the server is terminated inside
    it, with no report. *)
Theorem tcp_server_exchange {W} (h : os W) a k w :
  let r := run h (18 + k) (tcp_server.main a) w in
  let tr := trace_of r in
  receive_calls tr = (if existsb accepted tr then 1%nat else 0%nat)
  /\ match receive_returns tr with
     | [] => existsb accepted tr = false /\ sent tr = []
     | [n] =>
         (n < 0 ->
          sent tr = [] /\ errors tr = [[Str "Error: Receive failed. "; Errno]])
         /\ (n = 0 ->
             sent tr = [] /\ errors tr = []
             /\ In (EWrite Stdout [Str "Client disconnected."]) tr)
         /\ (0 < n ->
             sent tr = [tcp_reply]
             /\ ((exists s,
                    send_returns tr = [s]
                    /\ (s < 0 ->
                        errors tr = [[Str "Error: Send failed. "; Errno]])
                    /\ (0 <= s -> errors tr = []))
                 \/ (send_returns tr = [] /\ errors tr = []
                     /\ dies_in_send r)))
     | _ => False
     end.
Proof.
  intros r tr; subst tr r. unfold tcp_server.main, dies_in_send. exec h.
  all: cbn; unfold received; rewrite ?tcp_reply_sent.
  all: split; [reflexivity|].
  all: try (split; reflexivity).
  all: repeat match goal with
         | H : (_ =? _) = true |- _ => apply Z.eqb_eq in H
         | H : (_ =? _) = false |- _ => apply Z.eqb_neq in H
         end.
  all: split; [intros; try lia; split; reflexivity|].
  all: split; [intros; try lia; repeat split; try reflexivity; in_list|].
  all: intros; try lia.
  all: split; [reflexivity|].
  all: first [ left; eexists; split; [reflexivity|]; split; intros;
               first [lia | reflexivity]
             | right; cbn; rewrite ?Z.eqb_refl; cbn; rewrite ?Z.eqb_refl;
               repeat split; try reflexivity; ends_in_send ].
Qed.

(** ** The clients *)





(** ** Monitors *)

Lemma accepts_app {S} (step : S -> event -> option S) s tr1 tr2 :
  accepts step s (tr1 ++ tr2)
  = match accepts step s tr1 with
    | Some s' => accepts step s' tr2
    | None => None
    end.
Proof.
  revert s. induction tr1 as [|ev tr1 IH]; intros s; [reflexivity|].
  cbn [app accepts]. destruct (step s ev); [apply IH | reflexivity].
Qed.

Lemma accepts_prefix {S} (step : S -> event -> option S) s tr1 tr2 :
  accepts step s (tr1 ++ tr2) <> None -> accepts step s tr1 <> None.
Proof. rewrite accepts_app. destruct (accepts step s tr1); congruence. Qed.

Lemma accepts_whole_turns {S} (step : S -> event -> option S) s fd turns :
  (forall t, turn fd t -> accepts step s t = Some s) ->
  Forall (turn fd) turns ->
  accepts step s (List.concat turns) = Some s.
Proof.
  intros Hstep Hts. induction Hts as [|t turns Ht _ IH]; [reflexivity|].
  cbn [List.concat]. rewrite accepts_app, (Hstep _ Ht). exact IH.
Qed.

Lemma accepts_turns {S} (step : S -> event -> option S) s fd turns rest :
  (forall t, turn fd t -> accepts step s t = Some s) ->
  Forall (turn fd) turns -> unfinished fd rest ->
  accepts step s (List.concat turns ++ rest) <> None.
Proof.
  intros Hstep Hts (more & _ & Hmore).
  rewrite accepts_app, (accepts_whole_turns step s fd turns Hstep Hts).
  apply (accepts_prefix step s rest more). rewrite (Hstep _ Hmore). discriminate.
Qed.

(** ** The datagram server *)

Lemma sockaddr_eqb_refl a : sockaddr_eqb a a = true.
Proof. unfold sockaddr_eqb. now rewrite !Z.eqb_refl. Qed.

Lemma received_positive len d :
  delivered len d <> [] -> (0 <? received len (Some d)) = true.
Proof.
  intros H. apply Z.ltb_lt. unfold received.
  destruct (delivered len d); [congruence | cbn [List.length]; lia].
Qed.

Lemma received_zero len d :
  delivered len d = [] -> (0 <? received len (Some d)) = false.
Proof. intros H. unfold received. now rewrite H. Qed.

Lemma setup_calls_start n reuse : Forall setup_call (udp_setup n reuse).
Proof. destruct reuse; repeat constructor. Qed.

Lemma setup_calls_unbound n reuse cl : Forall setup_call (udp_unbound n reuse cl).
Proof. destruct reuse; repeat constructor. Qed.

Lemma setup_calls_no_socket : Forall setup_call udp_no_socket.
Proof. repeat constructor. Qed.

Lemma replies_setup pending pre :
  Forall setup_call pre -> accepts replies pending pre = Some pending.
Proof.
  induction 1 as [|ev pre Hev _ IH]; [reflexivity|].
  destruct ev; cbn in Hev; try contradiction; exact IH.
Qed.

Lemma replies_turn fd t : turn fd t -> accepts replies None t = Some None.
Proof.
  destruct 1; cbn [accepts replies].
  - reflexivity.
  - now rewrite received_zero.
  - now rewrite received_positive, sockaddr_eqb_refl.
  - now rewrite received_positive, sockaddr_eqb_refl.
Qed.

(** The beginnings of a list that is known in full. *)
Ltac prefixes Et :=
  match type of Et with
  | _ = ?rest ++ _ =>
      destruct rest as [|? rest];
      [ | cbn [app] in Et;
          first [ discriminate Et
                | let Hx := fresh "Hx" in
                  injection Et as Hx Et; subst; prefixes Et ] ]
  end.

Lemma loop_calls_turn fd t : turn fd t -> Forall loop_call t.
Proof. destruct 1; repeat constructor. Qed.

Lemma loop_calls_unfinished fd rest : unfinished fd rest -> Forall loop_call rest.
Proof.
  intros (more & _ & Ht). apply loop_calls_turn in Ht.
  apply Forall_app in Ht. apply Ht.
Qed.

Lemma loop_calls fd turns rest :
  Forall (turn fd) turns -> unfinished fd rest ->
  Forall loop_call (List.concat turns ++ rest).
Proof.
  intros Hts Hu. apply Forall_app. split; [|exact (loop_calls_unfinished _ _ Hu)].
  induction Hts as [|t turns Ht _ IH]; [constructor|].
  cbn [List.concat]. apply Forall_app. split; [exact (loop_calls_turn _ _ Ht) | exact IH].
Qed.

Lemma no_fatal_failure_in_loop tr :
  Forall loop_call tr -> existsb fatal_failure tr = false.
Proof.
  induction 1 as [|ev tr Hev _ IH]; [reflexivity|].
  destruct ev; cbn in Hev; try contradiction; exact IH.
Qed.

Lemma receive_calls_app tr1 tr2 :
  receive_calls (tr1 ++ tr2) = (receive_calls tr1 + receive_calls tr2)%nat.
Proof. unfold receive_calls. now rewrite filter_app, length_app. Qed.

Lemma receive_calls_setup pre :
  Forall setup_call pre -> receive_calls pre = 0%nat.
Proof.
  induction 1 as [|ev pre Hev _ IH]; [reflexivity|].
  destruct ev; cbn in Hev; try contradiction; exact IH.
Qed.

Lemma receive_calls_turns fd turns :
  Forall (turn fd) turns -> receive_calls (List.concat turns) = List.length turns.
Proof.
  induction 1 as [|t turns Ht _ IH]; [reflexivity|].
  cbn [List.concat List.length]. rewrite receive_calls_app, IH.
  destruct Ht; reflexivity.
Qed.

(** The datagram server keeps receiving: unless its set-up failed, it
    gets to its [n]-th receive for every [n]. *)
Lemma udp_server_receives_on {W} (h : os W) a w n :
  exists fuel,
    let tr := trace_of (run h fuel (udp_server.main a) w) in
    existsb fatal_failure tr = true \/ (n <= receive_calls tr)%nat.
Proof.
  exists (5 * n + 12)%nat. intros tr; subst tr.
  destruct (udp_server_runs h a (5 * n + 12) w)
    as [(_ & _ & Hf)
       | [(_ & ->)
         | [(m & reuse & cl & _ & ->)
           | (m & reuse & turns & rest & _ & -> & Hts & _ & Hf)]]].
  - lia.
  - now left.
  - left. now destruct reuse.
  - right. rewrite !receive_calls_app, (receive_calls_turns _ _ Hts). lia.
Qed.

(** C1: in the trace of the datagram server, whatever the steps granted
    and whatever the operating system answers, each datagram of positive
    length has been answered by the next send, which went to the sender
    that this very receive reported, before the next receive, and
    nothing else has been sent; and at most three steps more (the line
    that shows the datagram, the send, the line that reports it) bring
    the server to a point where no sender waits, so that the answer to
    the datagram received last is sent as well.  This goes on for every
    turn of the loop: unless its set-up failed, the server gets to its
    [n]-th receive for every [n].  The contents [a] of the address
    before the first receive play no part. *)
Theorem udp_server_replies_to_sender {W} (h : os W) a w :
  (forall fuel,
      accepts replies None (trace_of (run h fuel (udp_server.main a) w)) <> None
      /\ exists d,
           (d <= 3)%nat
           /\ accepts replies None
                (trace_of (run h (fuel + d) (udp_server.main a) w)) = Some None)
  /\ (forall n, exists fuel,
        let tr := trace_of (run h fuel (udp_server.main a) w) in
        existsb fatal_failure tr = true \/ (n <= receive_calls tr)%nat).
Proof.
  split; [intros fuel; split | intros n; apply udp_server_receives_on].
  - destruct (udp_server_runs h a fuel w)
      as [(_ & Hs & _)
         | [(_ & ->)
           | [(n & reuse & cl & _ & ->)
             | (n & reuse & turns & rest & _ & -> & Hts & Hu & _)]]].
    + now rewrite replies_setup.
    + discriminate.
    + destruct reuse; discriminate.
    + rewrite accepts_app, replies_setup by apply setup_calls_start.
      exact (accepts_turns replies None _ turns rest (replies_turn _) Hts Hu).
  - destruct (udp_server_settles h a fuel w)
      as (d & Hd & [(Hs & _) | (n & reuse & turns & Ht & Hts)]).
    + exists d. split; [exact Hd|]. now apply replies_setup.
    + exists d. split; [exact Hd|]. rewrite Ht.
      rewrite accepts_app, replies_setup by apply setup_calls_start.
      exact (accepts_whole_turns replies None _ turns (replies_turn _) Hts).
Qed.

(** C4: the loop of the datagram server never exits.  Whatever the
    steps granted, the server has returned only if its set-up failed,
    with 1 and before any receive; it has made no access outside an
    array; and its trace is the set-up followed by whole turns of the
    loop and one that is not over, where each whole turn is one of: a
    failed receive and its report; an empty datagram and its report,
    with no send; a datagram, its answer and the report of the failed
    send; a datagram and its answer.  After each of them comes the next
    turn: for every [n] the server either has exited in its set-up or
    gets to its [n]-th receive. *)
Theorem udp_server_never_exits {W} (h : os W) a w :
  (forall fuel,
      let r := run h fuel (udp_server.main a) w in
      match outcome_of r with
      | Running => True
      | Returned c =>
          c = 1 /\ existsb setup_failure (trace_of r) = true
          /\ receive_calls (trace_of r) = 0%nat
      | Undefined _ => False
      | Killed _ => False
      end
      /\ exists fd pre turns rest,
          trace_of r = pre ++ List.concat turns ++ rest
          /\ Forall setup_call pre /\ Forall (turn fd) turns
          /\ unfinished fd rest)
  /\ (forall n, exists fuel,
        let r := run h fuel (udp_server.main a) w in
        outcome_of r = Returned 1 \/ (n <= receive_calls (trace_of r))%nat).
Proof.
  split.
  - intros fuel r; subst r.
    destruct (udp_server_runs h a fuel w)
      as [(-> & Hs & _)
         | [(-> & ->)
           | [(n & reuse & cl & -> & ->)
             | (n & reuse & turns & rest & -> & -> & Hts & Hu & _)]]].
    + split; [exact I|]. exists 0, (trace_of (run h fuel (udp_server.main a) w)), [], [].
      cbn [List.concat app]. rewrite app_nil_r.
      repeat split; [exact Hs | constructor | apply unfinished_nil].
    + split; [repeat split|]. exists 0, udp_no_socket, [], [].
      repeat split; [apply setup_calls_no_socket | constructor | apply unfinished_nil].
    + split; [destruct reuse; repeat split|].
      exists 0, (udp_unbound n reuse cl), [], [].
      cbn [List.concat app]. rewrite app_nil_r.
      repeat split; [apply setup_calls_unbound | constructor | apply unfinished_nil].
    + split; [exact I|]. exists (Z.of_nat n), (udp_setup n reuse), turns, rest.
      repeat split; [apply setup_calls_start | exact Hts | exact Hu].
  - intros n. exists (5 * n + 12)%nat. intros r; subst r.
    destruct (udp_server_runs h a (5 * n + 12) w)
      as [(_ & _ & Hf)
         | [(-> & _)
           | [(m & reuse & cl & -> & _)
             | (m & reuse & turns & rest & _ & -> & Hts & _ & Hf)]]].
    + lia.
    + now left.
    + now left.
    + right. rewrite !receive_calls_app, (receive_calls_turns _ _ Hts). lia.
Qed.

(** The datagram server, run up to its loop and through it. *)
Ltac exec_udp h a :=
  lock_run h; exec_steps h;
  try match goal with
      | |- context [run h ?f (ITree.iter (udp_server.loop_body ?fd _) ?l) ?w] =>
          destruct (loop_runs h fd f l w (locals_ok_start a))
            as (turns & rest & w' & f' & Hr & Hts & Hu & Hf);
          rewrite Hr; cbn [then_run]
      end;
  repeat (exec1 h); unlock_run; cbn [trace_of outcome_of fst snd].

Lemma no_reuse_failure_in_loop tr :
  Forall loop_call tr -> existsb reuse_failed tr = false.
Proof.
  induction 1 as [|ev tr Hev _ IH]; [reflexivity|].
  destruct ev; cbn in Hev; try contradiction; exact IH.
Qed.

(** After a failed [setsockopt] the datagram server writes its warning
    and binds. *)
Lemma udp_server_warns {W} (h : os W) a k w :
  let tr := trace_of (run h (5 + k) (udp_server.main a) w) in
  existsb reuse_failed tr = true ->
  exists n ok rest, tr = udp_warned n ok ++ rest.
Proof.
  intros tr; subst tr. unfold udp_server.main. fold udp_message.
  exec_udp h a.
  all: try (cbn; discriminate).
  all: try (intros _; eexists _, _, _; reflexivity).
  all: intros H; exfalso; revert H; cbn [existsb reuse_failed app orb].
  all: rewrite (no_reuse_failure_in_loop _ (loop_calls _ _ _ Hts Hu)).
  all: discriminate.
Qed.

(** C7, as the code has it: a failure of [socket] or of [bind] is fatal
    to the datagram server, which exits with 1 and never receives; a
    failure of [setsockopt] is not: the server reports it as a warning
    on the error stream, goes on to bind, and without a failure of
    [socket] or [bind] goes on to its loop. *)
Theorem udp_server_fatal_failures {W} (h : os W) a fuel w :
  let r := run h fuel (udp_server.main a) w in
  (existsb fatal_failure (trace_of r) = true ->
   receive_calls (trace_of r) = 0%nat
   /\ ((8 <= fuel)%nat -> outcome_of r = Returned 1))
  /\ (existsb fatal_failure (trace_of r) = false ->
      (12 <= fuel)%nat ->
      outcome_of r = Running /\ (1 <= receive_calls (trace_of r))%nat)
  /\ (existsb reuse_failed (trace_of r) = true ->
      (5 <= fuel)%nat ->
      exists n ok rest, trace_of r = udp_warned n ok ++ rest).
Proof.
  intros r; subst r. split; [|split].
  3: { intros H Hfuel. replace fuel with (5 + (fuel - 5))%nat in * by lia.
       exact (udp_server_warns h a _ w H). }
  all: destruct (udp_server_runs h a fuel w)
    as [(-> & Hs & Hf)
       | [(-> & ->)
         | [(n & reuse & cl & -> & ->)
           | (n & reuse & turns & rest & -> & -> & Hts & Hu & Hf)]]].
  - intros _; split; [now apply receive_calls_setup | lia].
  - intros _; now split.
  - intros _; split; [destruct reuse |]; reflexivity.
  - intros H. rewrite existsb_app in H. apply orb_true_iff in H.
    destruct H as [H|H]; [destruct reuse; discriminate|].
    rewrite (no_fatal_failure_in_loop _ (loop_calls _ _ _ Hts Hu)) in H.
    discriminate.
  - lia.
  - discriminate.
  - destruct reuse; discriminate.
  - intros _ Hfuel. split; [reflexivity|].
    rewrite !receive_calls_app, (receive_calls_turns _ _ Hts). lia.
Qed.

(** C7, as it is stated, fails: when only [setsockopt] fails the
    datagram server does not exit; it writes its warning, binds and
    goes on to receive. *)
Lemma setsockopt_failure_not_fatal :
  let r := run kernel 12 (udp_server.main (endpoint 0 0))
               (boot (only OpSetsockopt) []) in
  existsb init_failure (trace_of r) = true
  /\ outcome_of r = Running
  /\ (0 < receive_calls (trace_of r))%nat.
Proof. vm_compute. repeat split; lia. Qed.

(** Scenario B: client A sends "A", then client B sends "B"; the first
    answer goes to A and the second to B. *)
Example two_clients :
  let A := endpoint LOOPBACK 50001 in
  let B := endpoint LOOPBACK 50002 in
  let r := run kernel 16 (udp_server.main (endpoint 0 0))
               (boot healthy [(list_byte_of_string "A", A);
                              (list_byte_of_string "B", B)]) in
  destinations (trace_of r) = [A; B]
  /\ sent (trace_of r) = [udp_reply; udp_reply].
Proof. vm_compute. split; reflexivity. Qed.

(** ** Receiving into the buffer *)

Lemma received_le len r : 0 <= len -> received len r <= len.
Proof.
  intros Hlen. unfold received. destruct r as [d|]; [|lia].
  pose proof (length_delivered_le len d). lia.
Qed.

Lemma receive_returns_bounded size tr :
  1 <= size ->
  Forall (fun len => len = size - 1) (receive_lengths tr) ->
  Forall (fun n => n <= size - 1 < size) (receive_returns tr).
Proof.
  intros Hsize. induction tr as [|ev tr IH]; [constructor|].
  destruct ev; cbn [receive_lengths receive_returns flat_map app]; try exact IH;
    intros H; inversion H as [|? ? Hlen Hrest]; subst;
    (constructor; [|now apply IH]);
    match goal with
    | |- received ?l ?r <= _ < _ => pose proof (received_le l r ltac:(lia)); lia
    end.
Qed.

Ltac receives_shown :=
  cbn; unfold shows; repeat split; try exact I;
  try (repeat constructor; fail);
  try (intros i; discriminate);
  try match goal with
      | Hz : (_ =? 0) = true, Hn : delivered _ _ <> [] |- _ =>
          exfalso; exact (Hn (delivered_nil _ _ Hz))
      end;
  try solve [in_list].

Lemma tcp_server_receives {W} (h : os W) a fuel w :
  let r := run h fuel (tcp_server.main a) w in
  (forall i, outcome_of r <> Undefined i)
  /\ receives_as_specified 1024 (trace_of r).
Proof.
  intros r; subst r. unfold tcp_server.main, receives_as_specified. exec h.
  all: receives_shown.
Qed.

Lemma tcp_client_receives {W} (h : os W) fuel w :
  let r := run h fuel tcp_client.main w in
  (forall i, outcome_of r <> Undefined i)
  /\ receives_as_specified 1024 (trace_of r).
Proof.
  intros r; subst r. unfold tcp_client.main, receives_as_specified. exec h.
  all: receives_shown.
Qed.

Lemma udp_client_receives {W} (h : os W) fuel w :
  let r := run h fuel udp_client.main w in
  (forall i, outcome_of r <> Undefined i)
  /\ receives_as_specified 1024 (trace_of r).
Proof.
  intros r; subst r. unfold udp_client.main, receives_as_specified. exec h.
  all: receives_shown.
Qed.

Lemma udp_reply_unterminated : terminated udp_reply = false.
Proof. reflexivity. Qed.

Lemma shows_received_line from d : shows 1023 d (received_line from d).
Proof. intros _. split; unfold received_line; in_list. Qed.

Ltac shown :=
  repeat lazymatch goal with
    | |- shows _ _ (received_line _ _) => apply shows_received_line
    | |- shows _ _ _ => let Hd := fresh in intros Hd; congruence
    | |- True => exact I
    | |- _ /\ _ => split
    | |- shows_received _ => first [assumption | progress cbn [shows_received]]
    end.

Lemma receives_setup size pre rest :
  Forall setup_call pre ->
  receives_as_specified size rest -> receives_as_specified size (pre ++ rest).
Proof.
  intros Hpre Hrest. induction Hpre as [|ev pre Hev _ IH]; [exact Hrest|].
  destruct IH as (Hl & Hs & Hp).
  destruct ev; cbn in Hev; try contradiction;
    (split; [exact Hl | split; [split; [exact I | exact Hs] | exact Hp]]).
Qed.

Lemma receives_turn fd t rest :
  turn fd t ->
  receives_as_specified 1024 rest -> receives_as_specified 1024 (t ++ rest).
Proof.
  intros Ht (Hl & Hs & Hp).
  destruct Ht; unfold receives_as_specified;
    cbn [app receive_lengths sent flat_map shows_received];
    (split; [constructor; [reflexivity | exact Hl] |]);
    (split; [shown |]);
    repeat (constructor; [apply udp_reply_unterminated|]); exact Hp.
Qed.

Lemma receives_turns fd turns rest :
  Forall (turn fd) turns ->
  receives_as_specified 1024 rest ->
  receives_as_specified 1024 (List.concat turns ++ rest).
Proof.
  intros Hts Hrest. induction Hts as [|t turns Ht _ IH]; [exact Hrest|].
  cbn [List.concat]. rewrite <- app_assoc. now apply (receives_turn fd).
Qed.

Lemma receives_unfinished fd rest :
  unfinished fd rest -> receives_as_specified 1024 rest.
Proof.
  intros (more & _ & Ht).
  remember (rest ++ more) as t eqn:Et.
  destruct Ht; prefixes Et; unfold receives_as_specified;
    cbn [receive_lengths sent flat_map app];
    (split; [repeat (constructor; try reflexivity) |]);
    (split; [shown | repeat (constructor; try reflexivity)]).
Qed.

Lemma udp_server_receives {W} (h : os W) a fuel w :
  let r := run h fuel (udp_server.main a) w in
  (forall i, outcome_of r <> Undefined i)
  /\ receives_as_specified 1024 (trace_of r).
Proof.
  intros r; subst r.
  destruct (udp_server_runs h a fuel w)
    as [(-> & Hs & _)
       | [(-> & ->)
         | [(n & reuse & cl & -> & ->)
           | (n & reuse & turns & rest & -> & -> & Hts & Hu & _)]]];
    (split; [intros i; discriminate|]).
  - rewrite <- (app_nil_r (trace_of _)).
    apply receives_setup; [exact Hs | repeat constructor].
  - repeat constructor.
  - rewrite <- (app_nil_r (udp_unbound n reuse cl)).
    apply receives_setup; [apply setup_calls_unbound | repeat constructor].
  - apply receives_setup; [apply setup_calls_start|].
    apply (receives_turns (Z.of_nat n)); [exact Hts|].
    exact (receives_unfinished _ _ Hu).
Qed.



(** C10: in each of the four programs, whatever the operating system
    answers and however long the program runs, no access leaves an
    array: every receive asks for [BUFFER_SIZE - 1] bytes, so what it
    returns is at most [BUFFER_SIZE - 1] and the terminator written at
    that index is inside the buffer of [BUFFER_SIZE] bytes. *)
Theorem terminator_within_buffer {W} (h : os W) a fuel w :
  within_buffer tcp_server.BUFFER_SIZE (run h fuel (tcp_server.main a) w)
  /\ within_buffer tcp_client.BUFFER_SIZE (run h fuel tcp_client.main w)
  /\ within_buffer udp_server.BUFFER_SIZE (run h fuel (udp_server.main a) w)
  /\ within_buffer udp_client.BUFFER_SIZE (run h fuel udp_client.main w).
Proof.
  destruct (tcp_server_receives h a fuel w) as (Hs & Hsl & _).
  destruct (tcp_client_receives h fuel w) as (Ht & Htl & _).
  destruct (udp_server_receives h a fuel w) as (Hd & Hdl & _).
  destruct (udp_client_receives h fuel w) as (Hu & Hul & _).
  unfold within_buffer.
  repeat match goal with |- _ /\ _ => split end; try assumption;
    (apply receive_returns_bounded; [easy | assumption]).
Qed.

(** ** Concrete runs *)

(** Scenario A: the client sends "Hello from TCP client!"; the server
    receives the same 22 bytes and answers "Hello from TCP server!";
    both sides close and exit with 0. *)
Example stream_exchange :
  let request := list_byte_of_string "Hello from TCP client!" in
  let server := run kernel 18 (tcp_server.main (endpoint 0 0))
                    (boot healthy [(request, endpoint LOOPBACK 40000)]) in
  let client := run kernel 11 tcp_client.main
                    (boot healthy [(tcp_reply, endpoint LOOPBACK 8080)]) in
  outcome_of server = Returned 0
  /\ receive_returns (trace_of server) = [22]
  /\ sent (trace_of server) = [tcp_reply]
  /\ closed_fds (trace_of server) = [4; 3]
  /\ outcome_of client = Returned 0
  /\ sent (trace_of client) = [request]
  /\ receive_returns (trace_of client) = [22]
  /\ closed_fds (trace_of client) = [3].
Proof. vm_compute. repeat split. Qed.

(** Scenario C: a second stream server on a port that is taken fails
    to bind; it closes its socket and exits with 1. *)
Example port_taken :
  let r := run kernel 18 (tcp_server.main (endpoint 0 0))
               (boot (only OpBind) []) in
  outcome_of r = Returned 1
  /\ errors (trace_of r) = [[Str "Error: Bind failed. "; Errno]]
  /\ closed_fds (trace_of r) = [3].
Proof. vm_compute. repeat split. Qed.

(** A datagram of 1024 bytes reaches the client cut to 1023 bytes; one
    of 1023 bytes reaches it whole. *)
Example boundary :
  let from := endpoint LOOPBACK 8080 in
  let long := run kernel 9 udp_client.main
                  (boot healthy [(repeat x78 1024, from)]) in
  let full := run kernel 9 udp_client.main
                  (boot healthy [(repeat x78 1023, from)]) in
  receive_returns (trace_of long) = [1023]
  /\ outcome_of long = Returned 0
  /\ receive_returns (trace_of full) = [1023]
  /\ In (EWrite Stdout [Str "Message received: "; CStr (repeat x78 1023);
                        Str " ("; Num 1023; Str " bytes)"])
        (trace_of full).
Proof.
  vm_compute. repeat split. do 6 right. left. reflexivity.
Qed.

(** A send on a connection that the peer has broken: with no flag the
    process is terminated by SIGPIPE, with [MSG_NOSIGNAL] the call
    returns -1. *)
Example send_on_broken_connection :
  let w := boot (only OpPipe) [] in
  outcome_of (run kernel 1 (libc.send 4 tcp_reply 22 0) w) = Killed SIGPIPE
  /\ outcome_of (run kernel 1 (libc.send 4 tcp_reply 22 MSG_NOSIGNAL) w)
     = Returned (-1).
Proof. vm_compute. split; reflexivity. Qed.

(** ** Further properties of the four programs *)

Lemma preceded_none p q tr : existsb q tr = false -> preceded p q tr = true.
Proof.
  induction tr as [|ev tr IH]; [reflexivity|]. cbn [existsb preceded].
  intros H. apply orb_false_iff in H. destruct H as [Hq H].
  rewrite Hq, (IH H). now destruct (p ev).
Qed.

Lemma positive_taken len d :
  (Z.of_nat (List.length (delivered len d)) =? 0) = false ->
  (0 <? Z.of_nat (List.length (delivered len d))) = true.
Proof. intros H. apply Z.eqb_neq in H. apply Z.ltb_lt. lia. Qed.

Lemma nothing_taken len d :
  (Z.of_nat (List.length (delivered len d)) =? 0) = true ->
  (0 <? Z.of_nat (List.length (delivered len d))) = false.
Proof. intros H. apply Z.eqb_eq in H. rewrite H. reflexivity. Qed.

(** Computing a monitor on a trace that is known call by call. *)
Ltac monitored :=
  unfold server_order, datagram_server_order, stream_client_order,
    datagram_client_order, server_steps, datagram_server_steps,
    stream_client_steps, datagram_client_steps;
  repeat (progress (cbn; unfold received;
                    rewrite ?Z.eqb_refl, ?orb_true_r, ?andb_true_r));
  repeat match goal with
    | H : (Z.of_nat _ =? 0) = false |- _ =>
        rewrite ?(positive_taken _ _ H); clear H
    | H : (Z.of_nat _ =? 0) = true |- _ =>
        rewrite ?(nothing_taken _ _ H); clear H
    end;
  repeat (progress (cbn; rewrite ?Z.eqb_refl, ?orb_true_r, ?andb_true_r));
  repeat split; try reflexivity; try discriminate;
  try (repeat constructor; fail).

Lemma tcp_server_monitored {W} (h : os W) a fuel w :
  let tr := trace_of (run h fuel (tcp_server.main a) w) in
  accepts uses [] tr <> None
  /\ accepts reports false tr <> None
  /\ server_order tr = true
  /\ Forall (fun fd => socket_fds tr = [fd]) (control_fds tr)
  /\ Forall (fun fd => accepted_fds tr = [fd]) (transfer_fds tr).
Proof.
  intros tr; subst tr. unfold tcp_server.main. exec h.
  all: monitored.
Qed.

Lemma tcp_client_monitored {W} (h : os W) fuel w :
  let r := run h fuel tcp_client.main w in
  accepts uses [] (trace_of r) <> None
  /\ accepts reports false (trace_of r) <> None
  /\ stream_client_order (trace_of r) = true
  /\ succeeds_on_any_reply (trace_of r) (outcome_of r).
Proof.
  intros r; subst r. unfold tcp_client.main. exec h.
  all: monitored.
Qed.

Lemma udp_client_monitored {W} (h : os W) fuel w :
  let r := run h fuel udp_client.main w in
  accepts uses [] (trace_of r) <> None
  /\ accepts reports false (trace_of r) <> None
  /\ datagram_client_order (trace_of r) = true
  /\ succeeds_on_any_reply (trace_of r) (outcome_of r).
Proof.
  intros r; subst r. unfold udp_client.main. exec h.
  all: monitored.
Qed.

Lemma uses_turn fd t : turn fd t -> accepts uses [fd] t = Some [fd].
Proof.
  destruct 1; cbn; unfold holds; cbn; rewrite Z.eqb_refl; cbn;
    rewrite ?Z.eqb_refl; reflexivity.
Qed.

Lemma reports_turn fd t : turn fd t -> accepts reports false t = Some false.
Proof. destruct 1; reflexivity. Qed.

Lemma closed_fds_app tr1 tr2 :
  closed_fds (tr1 ++ tr2) = closed_fds tr1 ++ closed_fds tr2.
Proof. apply flat_map_app. Qed.

Lemma nothing_closed_in_loop tr : Forall loop_call tr -> closed_fds tr = [].
Proof.
  induction 1 as [|ev tr Hev _ IH]; [reflexivity|].
  destruct ev; cbn in Hev; try contradiction; exact IH.
Qed.

Lemma no_close_in_loop tr : Forall loop_call tr -> existsb is_close tr = false.
Proof.
  induction 1 as [|ev tr Hev _ IH]; [reflexivity|].
  destruct ev; cbn in Hev; try contradiction; exact IH.
Qed.

Ltac closed_in_loop Hts Hu :=
  repeat match goal with
    | |- context [flat_map ?f (List.concat ?t ++ ?r)] =>
        change (flat_map f (List.concat t ++ r))
          with (closed_fds (List.concat t ++ r))
    end;
  rewrite ?(nothing_closed_in_loop _ (loop_calls _ _ _ Hts Hu)).

Lemma udp_server_monitored {W} (h : os W) a fuel w :
  let tr := trace_of (run h fuel (udp_server.main a) w) in
  accepts uses [] tr <> None
  /\ accepts reports false tr <> None
  /\ datagram_server_order tr = true
  /\ preceded bind_failed is_close tr = true
  /\ (List.length (closed_fds tr) <= 1)%nat.
Proof.
  intros tr; subst tr. unfold udp_server.main. fold udp_message.
  exec_udp h a.
  all: monitored.
  all: try closed_in_loop Hts Hu.
  all: rewrite ?(preceded_none _ _ _ (no_close_in_loop _ (loop_calls _ _ _ Hts Hu))).
  all: try (cbn; lia).
  all: try reflexivity.
  all: first [ apply (accepts_turns uses _ _ _ _ (uses_turn _) Hts Hu)
             | apply (accepts_turns reports _ _ _ _ (reports_turn _) Hts Hu) ].
Qed.

Lemma no_bind_failure_in_loop tr :
  Forall loop_call tr -> existsb bind_failed tr = false.
Proof.
  induction 1 as [|ev tr Hev _ IH]; [reflexivity|].
  destruct ev; cbn in Hev; try contradiction; exact IH.
Qed.

Lemma then_run_starts {W R Q} (r : result W R)
      (k : R -> W -> nat -> result W Q) ev :
  (exists more, trace_of r = ev :: more) ->
  exists more, trace_of (then_run r k) = ev :: more.
Proof.
  destruct r as [[[tr o] w] f]. intros [more Hr]. cbn in Hr. subst tr.
  destruct o; cbn [then_run]; try (eexists; reflexivity).
  destruct (k r w f) as [[[tr2 o2] w2] f2]. eexists. reflexivity.
Qed.

(** The loop starts with a receive. *)
Lemma loop_starts {W} (h : os W) fd f l w :
  locals_ok l ->
  exists r more,
    trace_of (run h (S f) (ITree.iter (udp_server.loop_body fd udp_message) l) w)
    = ERecvfrom fd 1023 0 SIZEOF_SOCKADDR_IN r :: more.
Proof.
  intros [Hlen Hal]. rewrite run_iter, run_bind. unfold udp_server.loop_body.
  rewrite Hal, run_bind, run_recvfrom by fits.
  destruct (h _ (SysRecvfrom fd (udp_server.BUFFER_SIZE - 1) 0 SIZEOF_SOCKADDR_IN) w)
    as [w' r].
  exists r. do 2 apply then_run_starts. eexists. reflexivity.
Qed.

(** The datagram server run far enough to be through its set-up. *)
Lemma udp_server_set_up {W} (h : os W) a k w :
  let tr := trace_of (run h (8 + k) (udp_server.main a) w) in
  datagram_server_steps tr
  /\ closed_fds tr = (if existsb bind_failed tr then opened_fds tr else []).
Proof.
  intros tr; subst tr. unfold udp_server.main. fold udp_message.
  exec_udp h a.
  all: monitored.
  all: try closed_in_loop Hts Hu.
  all: rewrite ?(no_bind_failure_in_loop _ (loop_calls _ _ _ Hts Hu)).
  all: try reflexivity.
  all: match goal with
       | Hr : run _ (S ?f) (ITree.iter (udp_server.loop_body ?fd _) ?l) ?w = _
         |- _ =>
           destruct (loop_starts h fd f l w (locals_ok_start a))
             as (r & more & Hst);
           rewrite Hr in Hst; cbn [trace_of fst] in Hst; rewrite Hst
       end.
  all: reflexivity.
Qed.

(** The three programs that end, run to their end. *)
Lemma tcp_server_completed {W} (h : os W) a k w :
  let tr := trace_of (run h (18 + k) (tcp_server.main a) w) in
  accepts reports false tr = Some false /\ server_steps tr.
Proof.
  intros tr; subst tr. unfold tcp_server.main. exec h.
  all: monitored.
Qed.

Lemma tcp_client_completed {W} (h : os W) k w :
  let r := run h (11 + k) tcp_client.main w in
  accepts reports false (trace_of r) = Some false
  /\ stream_client_steps (trace_of r)
  /\ (if existsb broken_pipe (trace_of r)
      then outcome_of r = Killed SIGPIPE
      else exists c, outcome_of r = Returned c).
Proof.
  intros r; subst r. unfold tcp_client.main. exec h.
  all: monitored.
  all: eexists; reflexivity.
Qed.

Lemma udp_client_completed {W} (h : os W) k w :
  let r := run h (9 + k) udp_client.main w in
  accepts reports false (trace_of r) = Some false
  /\ datagram_client_steps (trace_of r)
  /\ exists c, outcome_of r = Returned c.
Proof.
  intros r; subst r. unfold udp_client.main. exec h.
  all: monitored.
  all: eexists; reflexivity.
Qed.

Lemma reports_setup n reuse :
  accepts reports false (udp_setup n reuse) = Some false.
Proof. destruct reuse; reflexivity. Qed.

(** X1: none of the four programs ever makes a call on a descriptor it
    does not hold at that moment: every descriptor passed to a call was
    handed out by [socket] or [accept] before and is not yet closed, and
    no descriptor is closed twice. *)
Theorem calls_use_held_descriptors {W} (h : os W) a fuel w :
  accepts uses [] (trace_of (run h fuel (tcp_server.main a) w)) <> None
  /\ accepts uses [] (trace_of (run h fuel tcp_client.main w)) <> None
  /\ accepts uses [] (trace_of (run h fuel (udp_server.main a) w)) <> None
  /\ accepts uses [] (trace_of (run h fuel udp_client.main w)) <> None.
Proof.
  split; [exact (proj1 (tcp_server_monitored h a fuel w))|].
  split; [exact (proj1 (tcp_client_monitored h fuel w))|].
  split; [exact (proj1 (udp_server_monitored h a fuel w))|].
  exact (proj1 (udp_client_monitored h fuel w)).
Qed.

(** X2: in each of the four programs every call other than [close]
    that returns a failure is followed at once by a line on the error
    stream that carries the reason ([strerror(errno)]), and the error
    stream gets no other line; the result of [close] is never looked
    at.  No report is left out at the end: the three programs that end
    have none due when they end, and the datagram server has none due
    after at most three steps more.  A send that ends in SIGPIPE does
    not return and is reported by no line. *)
Theorem failures_are_reported {W} (h : os W) a fuel k w :
  (accepts reports false (trace_of (run h fuel (tcp_server.main a) w)) <> None
   /\ accepts reports false (trace_of (run h fuel tcp_client.main w)) <> None
   /\ accepts reports false (trace_of (run h fuel (udp_server.main a) w)) <> None
   /\ accepts reports false (trace_of (run h fuel udp_client.main w)) <> None)
  /\ accepts reports false (trace_of (run h (18 + k) (tcp_server.main a) w))
     = Some false
  /\ accepts reports false (trace_of (run h (11 + k) tcp_client.main w))
     = Some false
  /\ accepts reports false (trace_of (run h (9 + k) udp_client.main w))
     = Some false
  /\ exists d,
       (d <= 3)%nat
       /\ accepts reports false
            (trace_of (run h (fuel + d) (udp_server.main a) w)) = Some false.
Proof.
  split; [|split; [|split; [|split]]].
  - split; [exact (proj1 (proj2 (tcp_server_monitored h a fuel w)))|].
    split; [exact (proj1 (proj2 (tcp_client_monitored h fuel w)))|].
    split; [exact (proj1 (proj2 (udp_server_monitored h a fuel w)))|].
    exact (proj1 (proj2 (udp_client_monitored h fuel w))).
  - exact (proj1 (tcp_server_completed h a k w)).
  - exact (proj1 (tcp_client_completed h k w)).
  - exact (proj1 (udp_client_completed h k w)).
  - destruct (udp_server_settles h a fuel w)
      as (d & Hd & [(_ & Hr) | (n & reuse & turns & Ht & Hts)]);
      exists d; (split; [exact Hd|]).
    + exact Hr.
    + rewrite Ht, accepts_app, reports_setup.
      exact (accepts_whole_turns reports false _ turns (reports_turn _) Hts).
Qed.

(** X3: the servers make their calls in the order of their states, and
    make them.  Both set the option and the address only on a socket
    that exists; the stream server listens only after its bind
    succeeded, accepts only after its listen succeeded, receives only
    after its accept succeeded and sends only after a receive took
    bytes; the datagram server receives and sends nothing before its
    bind succeeded.  In a run that is over, the stream server has made
    each of these calls exactly when the step before it succeeded, and
    so has the datagram server up to its first receive; whether
    [setsockopt] succeeded plays no part: both servers bind exactly when
    they got a socket. *)
Theorem servers_keep_order {W} (h : os W) a fuel k w :
  server_order (trace_of (run h fuel (tcp_server.main a) w)) = true
  /\ datagram_server_order (trace_of (run h fuel (udp_server.main a) w)) = true
  /\ server_steps (trace_of (run h (18 + k) (tcp_server.main a) w))
  /\ datagram_server_steps (trace_of (run h (8 + k) (udp_server.main a) w)).
Proof.
  split; [|split; [|split]].
  - exact (proj1 (proj2 (proj2 (tcp_server_monitored h a fuel w)))).
  - exact (proj1 (proj2 (proj2 (udp_server_monitored h a fuel w)))).
  - exact (proj2 (tcp_server_completed h a k w)).
  - exact (proj1 (udp_server_set_up h a k w)).
Qed.

(** X4: each client makes its calls in order, and makes them.  The
    stream client connects only to an address that is validated, sends
    only after its connect succeeded, and receives only after its send
    succeeded; the datagram client never connects, sends only to an
    address that is validated, and receives only after its send
    succeeded.  In a run that is over, each of these calls has been made
    exactly when the step before it succeeded. *)
Theorem clients_keep_order {W} (h : os W) fuel k w :
  stream_client_order (trace_of (run h fuel tcp_client.main w)) = true
  /\ datagram_client_order (trace_of (run h fuel udp_client.main w)) = true
  /\ stream_client_steps (trace_of (run h (11 + k) tcp_client.main w))
  /\ datagram_client_steps (trace_of (run h (9 + k) udp_client.main w)).
Proof.
  split; [|split; [|split]].
  - exact (proj1 (proj2 (proj2 (tcp_client_monitored h fuel w)))).
  - exact (proj1 (proj2 (proj2 (udp_client_monitored h fuel w)))).
  - exact (proj1 (proj2 (tcp_client_completed h k w))).
  - exact (proj1 (proj2 (udp_client_completed h k w))).
Qed.

(** X5: in the stream server the calls that set up and accept are made
    on the descriptor [socket] returned, and the receive and the send on
    the descriptor [accept] returned, never on the listening socket. *)
Theorem stream_server_uses_accepted_socket {W} (h : os W) a fuel w :
  let tr := trace_of (run h fuel (tcp_server.main a) w) in
  Forall (fun fd => socket_fds tr = [fd]) (control_fds tr)
  /\ Forall (fun fd => accepted_fds tr = [fd]) (transfer_fds tr).
Proof.
  exact (proj2 (proj2 (proj2 (tcp_server_monitored h a fuel w)))).
Qed.

(** X6: a client that validated its address goes on to it and to no
    other: the stream client connects, and the datagram client sends,
    to the address [inet_pton] produced, on port 8080. *)
Theorem clients_target_validated_address {W} (h : os W) k w :
  let rt := run h (11 + k) tcp_client.main w in
  let ru := run h (9 + k) udp_client.main w in
  connect_targets (trace_of rt)
  = map (fun a => endpoint a tcp_client.PORT) (validated_addresses (trace_of rt))
  /\ destinations (trace_of ru)
     = map (fun a => endpoint a udp_client.PORT)
           (validated_addresses (trace_of ru)).
Proof.
  intros rt ru; subst rt ru.
  split; [unfold tcp_client.main | unfold udp_client.main]; exec h.
  all: reflexivity.
Qed.

(** X7: a client hands exactly one payload to its send, its fixed
    request without the terminator, in every run whose set-up succeeded,
    and none in a run whose set-up failed. *)
Theorem clients_send_their_request {W} (h : os W) k w :
  let rt := run h (11 + k) tcp_client.main w in
  let ru := run h (9 + k) udp_client.main w in
  sent (trace_of rt)
  = (if existsb setup_failure (trace_of rt) then [] else [tcp_request])
  /\ sent (trace_of ru)
     = (if existsb setup_failure (trace_of ru) then [] else [udp_request]).
Proof.
  intros rt ru; subst rt ru.
  split; [unfold tcp_client.main | unfold udp_client.main]; exec h.
  all: reflexivity.
Qed.

(** X8: a client that has returned has returned 0 exactly when its
    receive was made and did not fail: whatever it received, from
    whomever, and also when it received nothing because the peer had
    closed or the datagram was empty.  And a client does come to its
    end when each of its calls comes back: the datagram client returns
    within 9 calls, the stream client within 11 returns or is
    terminated inside its send. *)
Theorem clients_succeed_on_any_reply {W} (h : os W) fuel k w :
  let rt := run h fuel tcp_client.main w in
  let ru := run h fuel udp_client.main w in
  let et := run h (11 + k) tcp_client.main w in
  let eu := run h (9 + k) udp_client.main w in
  succeeds_on_any_reply (trace_of rt) (outcome_of rt)
  /\ succeeds_on_any_reply (trace_of ru) (outcome_of ru)
  /\ (if existsb broken_pipe (trace_of et)
      then outcome_of et = Killed SIGPIPE
      else exists c, outcome_of et = Returned c)
  /\ exists c, outcome_of eu = Returned c.
Proof.
  split; [|split; [|split]].
  - exact (proj2 (proj2 (proj2 (tcp_client_monitored h fuel w)))).
  - exact (proj2 (proj2 (proj2 (udp_client_monitored h fuel w)))).
  - exact (proj2 (proj2 (tcp_client_completed h k w))).
  - exact (proj2 (proj2 (udp_client_completed h k w))).
Qed.

(** X9: the datagram server closes its socket on one path only, after
    a bind that failed: no close comes before a failed bind, there is at
    most one close, and once a receive is made nothing is closed.  When
    the set-up is over the server has closed what it opened if its bind
    failed, and nothing otherwise: the close after the loop is never
    reached. *)
Theorem datagram_server_never_closes {W} (h : os W) a fuel k w :
  let tr := trace_of (run h fuel (udp_server.main a) w) in
  let set_up := trace_of (run h (8 + k) (udp_server.main a) w) in
  preceded bind_failed is_close tr = true
  /\ (List.length (closed_fds tr) <= 1)%nat
  /\ (receive_calls tr = 0%nat \/ closed_fds tr = [])
  /\ closed_fds set_up
     = (if existsb bind_failed set_up then opened_fds set_up else []).
Proof.
  intros tr set_up; subst tr set_up.
  split; [exact (proj1 (proj2 (proj2 (proj2 (udp_server_monitored h a fuel w)))))|].
  split; [exact (proj2 (proj2 (proj2 (proj2 (udp_server_monitored h a fuel w)))))|].
  split; [|exact (proj2 (udp_server_set_up h a k w))].
  destruct (udp_server_runs h a fuel w)
    as [(_ & Hs & _)
       | [(_ & ->)
         | [(n & reuse & cl & _ & ->)
           | (n & reuse & turns & rest & _ & -> & Hts & Hu & _)]]].
  - left. now apply receive_calls_setup.
  - left. reflexivity.
  - left. destruct reuse; reflexivity.
  - right. rewrite closed_fds_app, (nothing_closed_in_loop _ (loop_calls _ _ _ Hts Hu)).
    destruct reuse; reflexivity.
Qed.

(** X10: when [accept] hands the stream server a connection, the server
    writes the address and the port of that very peer, the port turned
    to host byte order. *)
Theorem stream_server_names_its_peer {W} (h : os W) a k w s l c peer :
  let tr := trace_of (run h (18 + k) (tcp_server.main a) w) in
  In (EAccept s l (Some (c, peer))) tr ->
  In (EWrite Stdout [Str "Accepted connection from "; Ip (sin_addr peer);
                     Str ":"; Num (ntohs (sin_port peer))]) tr.
Proof.
  intros tr; subst tr. unfold tcp_server.main. exec h.
  all: intros Hin; cbn in Hin;
    repeat (destruct Hin as [Hin|Hin]; try discriminate Hin);
    try contradiction.
  all: injection Hin as <- <- <- <-; in_list.
Qed.

Lemma stream_server_names_its_peer_run :
  let tr := trace_of (run kernel 18 (tcp_server.main (endpoint 0 0))
                          (boot healthy [])) in
  In (EAccept 3 16 (Some (4%nat, endpoint LOOPBACK 40000))) tr
  /\ In (EWrite Stdout [Str "Accepted connection from "; Ip LOOPBACK;
                        Str ":"; Num 40000]) tr.
Proof.
  split.
  - vm_compute. in_list.
  - apply (stream_server_names_its_peer kernel (endpoint 0 0) 0 (boot healthy [])
             3 16 4%nat (endpoint LOOPBACK 40000)).
    vm_compute. in_list.
Defined.

(** The monitors refuse what they are meant to refuse: a call on a
    descriptor that was closed, a failure that is not reported, a line
    on the error stream that reports nothing, an answer to another
    address than the sender, a [listen] without a bind, a send without
    a connection, a receive before the send. *)
Example monitors_refuse :
  let A := endpoint LOOPBACK 50001 in
  let B := endpoint LOOPBACK 50002 in
  accepts uses [] [ESocket AF_INET SOCK_STREAM 0 (Some 3%nat);
                   EClose 3 true; ERecv 3 1023 0 None] = None
  /\ accepts uses [] [ESocket AF_INET SOCK_STREAM 0 (Some 3%nat);
                      EClose 3 true; EClose 3 true] = None
  /\ accepts reports false
       [ESocket AF_INET SOCK_STREAM 0 None;
        EWrite Stdout [Str "Server socket created successfully."]] = None
  /\ accepts reports false [ESocket AF_INET SOCK_STREAM 0 None] = Some true
  /\ accepts reports false [EWrite Stderr [Str "Error: Bind failed. "; Errno]]
     = None
  /\ accepts replies None
       [ERecvfrom 3 1023 0 16 (Some (list_byte_of_string "A", A));
        ESendto 3 udp_reply 0 B 16 (Some 22%nat)] = None
  /\ accepts replies None
       [ERecvfrom 3 1023 0 16 (Some (list_byte_of_string "A", A));
        EClose 3 true] = Some (Some A)
  /\ server_order [ESocket AF_INET SOCK_STREAM 0 (Some 3%nat);
                   EListen 3 5 true] = false
  /\ stream_client_order
       [EInetPton AF_INET "127.0.0.1" (PtonOk LOOPBACK);
        ESend 3 tcp_request 0 (SendReturns (Some 22%nat))] = false
  /\ datagram_client_order
       [EInetPton AF_INET "127.0.0.1" (PtonOk LOOPBACK);
        ERecvfrom 3 1023 0 16 None] = false.
Proof. repeat split. Qed.
